(** * MetaGraphia: the generation store and the components that drive it

    A shallow embedding of the Svelte front end of the DiffusionBee Tauri
    port: the [imageGeneration] store (state and actions), the
    [ProgressTracker], [DimensionInput] and [ImageGenerator] components, and
    the line protocol spoken with the image worker.

    JavaScript numbers that the code uses as counters, pixel sizes and
    millisecond clocks are integers ([Z]); the guidance scale and the
    time-per-step quotient are rationals ([Q]).  [null] is [None].  An
    [await invoke(...)] is a suspension point: the backend's answer, a
    resolved value or a rejection, is an input of the model. *)

From Stdlib Require Import ZArith QArith Qround Bool List String Ascii Lia.
From Stdlib Require Import DecimalString.
From Stdlib Require DecimalPos DecimalFacts.
Import ListNotations.

Local Open Scope Z_scope.

(** ** JavaScript primitives used by the components *)

Module Js.

(** A thrown or rejected value; the code only ever treats it as a string
    ([err as string]). *)
Definition JsError := string.

(** Strings are sequences of UTF-8 bytes.  The white space and line
    terminators that [String.prototype.trim] and [parseInt] skip are, as
    single bytes, TAB, LF, VT, FF, CR and SPACE ... *)
Definition is_whitespace (c : ascii) : bool :=
  let n := N_of_ascii c in
  (((9 <=? n) && (n <=? 13)) || (n =? 32))%N.

(** ... and, as longer sequences, U+00A0, U+1680, U+2000 to U+200A, U+2028,
    U+2029, U+202F, U+205F, U+3000 and U+FEFF.  [strip_space s] is [s]
    without its first code point when that one is white space. *)
Definition strip_space (s : string) : option string :=
  match s with
  | EmptyString => None
  | String c rest =>
      let n := N_of_ascii c in
      if is_whitespace c then Some rest
      else if (n =? 194)%N then
        match rest with
        | String c2 rest2 => if (N_of_ascii c2 =? 160)%N then Some rest2 else None
        | EmptyString => None
        end
      else if ((n =? 225) || (n =? 226) || (n =? 227) || (n =? 239))%N then
        match rest with
        | String c2 (String c3 rest3) =>
            let n2 := N_of_ascii c2 in
            let n3 := N_of_ascii c3 in
            if (((n =? 225) && (n2 =? 154) && (n3 =? 128))
                || ((n =? 226) && (n2 =? 128)
                    && (((128 <=? n3) && (n3 <=? 138))
                        || (n3 =? 168) || (n3 =? 169) || (n3 =? 175)))
                || ((n =? 226) && (n2 =? 129) && (n3 =? 159))
                || ((n =? 227) && (n2 =? 128) && (n3 =? 128))
                || ((n =? 239) && (n2 =? 187) && (n3 =? 191)))%N
            then Some rest3 else None
        | _ => None
        end
      else None
  end.

Fixpoint trimStart_from (fuel : nat) (s : string) : string :=
  match fuel with
  | O => s
  | S fuel' =>
      match strip_space s with
      | Some rest => trimStart_from fuel' rest
      | None => s
      end
  end.

Definition trimStart (s : string) : string := trimStart_from (String.length s) s.

(** [s] is made of white space only. *)
Fixpoint all_space_from (fuel : nat) (s : string) : bool :=
  match s with
  | EmptyString => true
  | _ =>
      match fuel with
      | O => false
      | S fuel' =>
          match strip_space s with
          | Some rest => all_space_from fuel' rest
          | None => false
          end
      end
  end.

Definition all_space (s : string) : bool := all_space_from (String.length s) s.

(** Keeps [s] up to its last code point that is not white space. *)
Fixpoint trimEnd (s : string) : string :=
  match s with
  | EmptyString => EmptyString
  | String c rest => if all_space s then EmptyString else String c (trimEnd rest)
  end.

Definition trim (s : string) : string := trimEnd (trimStart s).

(** Truthiness of a string: only the empty string is falsy. *)
Definition truthy_string (s : string) : bool :=
  match s with EmptyString => false | _ => true end.

(** Truthiness of a [number | null]: [null] and [0] are falsy. *)
Definition truthy_number (n : option Z) : bool :=
  match n with None => false | Some v => negb (v =? 0) end.

(** Value of a digit in the given radix, [None] when [c] is no such digit. *)
Definition digit_value (radix : Z) (c : ascii) : option Z :=
  let n := Z.of_N (N_of_ascii c) in
  let v :=
    if (48 <=? n) && (n <=? 57) then Some (n - 48)
    else if (97 <=? n) && (n <=? 122) then Some (n - 87)
    else if (65 <=? n) && (n <=? 90) then Some (n - 55)
    else None in
  match v with
  | Some d => if d <? radix then Some d else None
  | None => None
  end.

(** The longest prefix of radix digits, folded into its value; the boolean
    tells whether at least one digit was read. *)
Fixpoint read_digits (radix : Z) (acc : Z) (seen : bool) (s : string) : Z * bool :=
  match s with
  | EmptyString => (acc, seen)
  | String c rest =>
      match digit_value radix c with
      | Some d => read_digits radix (radix * acc + d) true rest
      | None => (acc, seen)
      end
  end.

(** [parseInt(string)] with no radix argument: leading white space is
    skipped, a sign is read, a [0x]/[0X] prefix switches to radix 16, and
    the longest digit prefix is the result; [None] is [NaN].  The result is
    the integer the digits denote.  JavaScript rounds it to a double, which
    changes it only beyond 2^53 and never moves it across the bounds 256 and
    1024 that the components compare it with. *)
Definition parseInt (s : string) : option Z :=
  let s1 := trimStart s in
  let '(sign, s2) :=
    match s1 with
    | String "-" rest => (-1, rest)
    | String "+" rest => (1, rest)
    | _ => (1, s1)
    end in
  let '(radix, s3) :=
    match s2 with
    | String "0" (String "x" rest) => (16, rest)
    | String "0" (String "X" rest) => (16, rest)
    | _ => (10, s2)
    end in
  match read_digits radix 0 false s3 with
  | (v, true) => Some (sign * v)
  | (_, false) => None
  end.

(** [isNaN] on the result of [parseInt]. *)
Definition isNaN (n : option Z) : bool :=
  match n with None => true | Some _ => false end.

(** Template-literal rendering of an integer. *)
Definition string_of_Z (z : Z) : string := NilZero.string_of_int (Z.to_int z).

End Js.

(** ** stores/imageGeneration: types *)

Record GenerationParams := mkParams {
  prompt : string;
  img_width : Z;
  img_height : Z;
  num_imgs : Z;
  num_inference_steps : Z;
  guidance_scale : Q
}.

(** The declared fields of the interface, and the two flags that the initial
    store value carries beyond it ([None] when the object has no such
    property). *)
Record GenerationProgress := mkProgress {
  current_step : Z;
  total_steps : Z;
  status : string;
  is_complete : option bool;
  is_cancelled : option bool
}.

Record GenerationResult := mkResult {
  generated_img_path : string;
  aux_output_image_path : option string
}.

Record GenerationState := mkState {
  params : GenerationParams;
  isGenerating : bool;
  progress : GenerationProgress;
  currentResult : option GenerationResult;
  error : option string;
  history : list GenerationResult
}.

Record AppSettings := mkSettings {
  default_width : Z;
  default_height : Z;
  default_inference_steps : Z;
  default_guidance_scale : Q;
  output_directory : string;
  model_path : string
}.

Definition defaultParams : GenerationParams :=
  {| prompt := "";
     img_width := 512;
     img_height := 512;
     num_imgs := 1;
     num_inference_steps := 20;
     guidance_scale := 75 # 10 |}.

(** The value the store is created with. *)
Definition initialState : GenerationState :=
  {| params := defaultParams;
     isGenerating := false;
     progress := {| current_step := 0; total_steps := 20; status := "Ready";
                    is_complete := Some false; is_cancelled := Some false |};
     currentResult := None;
     error := None;
     history := [] |}.

Definition initialSettings : AppSettings :=
  {| default_width := 512;
     default_height := 512;
     default_inference_steps := 20;
     default_guidance_scale := 75 # 10;
     output_directory := "";
     model_path := "" |}.

(** ** svelte/store: a writable with its subscribers' feed *)

Module Writable.

(** [value] is the current content; [published] lists, oldest first, every
    value handed to the subscribers after creation. *)
Record t (A : Type) := mk { value : A; published : list A }.
Arguments mk {A}.
Arguments value {A}.
Arguments published {A}.

Definition writable {A} (init : A) : t A := {| value := init; published := [] |}.

(** Svelte's [safe_not_equal]: two object values always count as different,
    whatever their contents, and the store only ever holds objects. *)
Definition safe_not_equal {A} (a b : A) : bool := true.

Definition set {A} (new_value : A) (w : t A) : t A :=
  if safe_not_equal (value w) new_value
  then {| value := new_value; published := published w ++ [new_value] |}
  else w.

Definition update {A} (fn : A -> A) (w : t A) : t A := set (fn (value w)) w.

End Writable.

(** ** Backend commands reached through [invoke] *)

Inductive Command :=
| generate_image (request : GenerationParams)
| cancel_generation
| get_generation_progress
| get_settings.

(** What each command resolves to. *)
Definition Reply (cmd : Command) : Type :=
  match cmd with
  | generate_image _ => GenerationResult
  | cancel_generation => unit
  | get_generation_progress => GenerationProgress
  | get_settings => AppSettings
  end.

(** A settled promise. *)
Inductive Settled (A : Type) :=
| Resolved (a : A)
| Rejected (e : Js.JsError).
Arguments Resolved {A}.
Arguments Rejected {A}.

(** ** The page: stores, console, clock, timers, and the components' variables

    [ProgressTracker] and [DimensionInput] keep copies of store fields in
    variables of their own ([isGenerating], [progress], [width], [height]),
    assigned by their reactive statements; the two dimension variables are
    also bound to the number inputs ([bind:value]). *)

Record Timer := mkTimer { timer_id : Z; delay : Z }.

Record World := mkWorld {
  generationStore : Writable.t GenerationState;
  settingsStore : Writable.t AppSettings;
  console : list string;                  (* console.error lines, oldest first *)
  clock : Z;                              (* Date.now() *)
  next_timer : Z;                         (* handle the next setInterval returns *)
  timers : list Timer;                    (* live intervals *)
  tracker_isGenerating : bool;            (* ProgressTracker: isGenerating *)
  tracker_progress : GenerationProgress;  (* ProgressTracker: progress *)
  progressInterval : option Z;            (* ProgressTracker *)
  startTime : option Z;                   (* ProgressTracker *)
  estimatedTimeRemaining : string;        (* ProgressTracker *)
  input_width : Z;                        (* DimensionInput: width *)
  input_height : Z                        (* DimensionInput: height *)
}.

Definition initialWorld : World :=
  {| generationStore := Writable.writable initialState;
     settingsStore := Writable.writable initialSettings;
     console := [];
     clock := 0;
     next_timer := 1;
     timers := [];
     tracker_isGenerating := isGenerating initialState;
     tracker_progress := progress initialState;
     progressInterval := None;
     startTime := None;
     estimatedTimeRemaining := "";
     input_width := img_width (params initialState);
     input_height := img_height (params initialState) |}.

Definition with_generationStore (f : Writable.t GenerationState -> Writable.t GenerationState)
    (w : World) : World :=
  mkWorld (f (generationStore w)) (settingsStore w) (console w) (clock w) (next_timer w)
          (timers w) (tracker_isGenerating w) (tracker_progress w) (progressInterval w)
          (startTime w) (estimatedTimeRemaining w) (input_width w) (input_height w).

Definition with_settingsStore (f : Writable.t AppSettings -> Writable.t AppSettings)
    (w : World) : World :=
  mkWorld (generationStore w) (f (settingsStore w)) (console w) (clock w) (next_timer w)
          (timers w) (tracker_isGenerating w) (tracker_progress w) (progressInterval w)
          (startTime w) (estimatedTimeRemaining w) (input_width w) (input_height w).

Definition with_console (f : list string -> list string) (w : World) : World :=
  mkWorld (generationStore w) (settingsStore w) (f (console w)) (clock w) (next_timer w)
          (timers w) (tracker_isGenerating w) (tracker_progress w) (progressInterval w)
          (startTime w) (estimatedTimeRemaining w) (input_width w) (input_height w).

Definition with_clock (now : Z) (w : World) : World :=
  mkWorld (generationStore w) (settingsStore w) (console w) now (next_timer w)
          (timers w) (tracker_isGenerating w) (tracker_progress w) (progressInterval w)
          (startTime w) (estimatedTimeRemaining w) (input_width w) (input_height w).

Definition with_timers (next : Z) (ts : list Timer) (w : World) : World :=
  mkWorld (generationStore w) (settingsStore w) (console w) (clock w) next ts
          (tracker_isGenerating w) (tracker_progress w) (progressInterval w)
          (startTime w) (estimatedTimeRemaining w) (input_width w) (input_height w).

Definition with_tracker_store (g : bool) (p : GenerationProgress) (w : World) : World :=
  mkWorld (generationStore w) (settingsStore w) (console w) (clock w) (next_timer w)
          (timers w) g p (progressInterval w) (startTime w) (estimatedTimeRemaining w)
          (input_width w) (input_height w).

Definition with_progressInterval (v : option Z) (w : World) : World :=
  mkWorld (generationStore w) (settingsStore w) (console w) (clock w) (next_timer w)
          (timers w) (tracker_isGenerating w) (tracker_progress w) v (startTime w)
          (estimatedTimeRemaining w) (input_width w) (input_height w).

Definition with_startTime (v : option Z) (w : World) : World :=
  mkWorld (generationStore w) (settingsStore w) (console w) (clock w) (next_timer w)
          (timers w) (tracker_isGenerating w) (tracker_progress w) (progressInterval w)
          v (estimatedTimeRemaining w) (input_width w) (input_height w).

Definition with_estimatedTimeRemaining (v : string) (w : World) : World :=
  mkWorld (generationStore w) (settingsStore w) (console w) (clock w) (next_timer w)
          (timers w) (tracker_isGenerating w) (tracker_progress w) (progressInterval w)
          (startTime w) v (input_width w) (input_height w).

Definition with_input_width (v : Z) (w : World) : World :=
  mkWorld (generationStore w) (settingsStore w) (console w) (clock w) (next_timer w)
          (timers w) (tracker_isGenerating w) (tracker_progress w) (progressInterval w)
          (startTime w) (estimatedTimeRemaining w) v (input_height w).

Definition with_input_height (v : Z) (w : World) : World :=
  mkWorld (generationStore w) (settingsStore w) (console w) (clock w) (next_timer w)
          (timers w) (tracker_isGenerating w) (tracker_progress w) (progressInterval w)
          (startTime w) (estimatedTimeRemaining w) (input_width w) v.

(** The store's current value, as [$generationStore] reads it. *)
Definition store (w : World) : GenerationState := Writable.value (generationStore w).

(** ** Asynchronous functions

    An [async] body is a tree of synchronous effects on the page, [throw]s,
    and [await invoke(...)] suspension points whose continuation receives the
    settled promise. *)

Inductive Async (A : Type) : Type :=
| Ret (a : A)
| Throw (e : Js.JsError)
| Sync {B : Type} (effect : World -> B * World) (k : B -> Async A)
| Invoke (cmd : Command) (k : Settled (Reply cmd) -> Async A).
Arguments Ret {A}.
Arguments Throw {A}.
Arguments Sync {A B}.
Arguments Invoke {A}.

Fixpoint bind {A B} (m : Async A) (f : A -> Async B) : Async B :=
  match m with
  | Ret a => f a
  | Throw e => Throw e
  | Sync effect k => Sync effect (fun b => bind (k b) f)
  | Invoke cmd k => Invoke cmd (fun r => bind (k r) f)
  end.

(** [try { body } catch (e) { handler e }] *)
Fixpoint try_catch {A} (body : Async A) (handler : Js.JsError -> Async A) : Async A :=
  match body with
  | Ret a => Ret a
  | Throw e => handler e
  | Sync effect k => Sync effect (fun b => try_catch (k b) handler)
  | Invoke cmd k => Invoke cmd (fun r => try_catch (k r) handler)
  end.

Declare Scope async_scope.
Delimit Scope async_scope with async.
Notation "x <- m ;; k" := (bind m (fun x => k))
  (at level 61, m at next level, right associativity) : async_scope.
Notation "m ;; k" := (bind m (fun _ => k))
  (at level 61, right associativity) : async_scope.
Local Open Scope async_scope.

(** [await invoke(cmd)]: resumes with the value, or throws the rejection. *)
Definition await_invoke (cmd : Command) : Async (Reply cmd) :=
  Invoke cmd (fun r => match r with Resolved v => Ret v | Rejected e => Throw e end).

Definition modify (f : World -> World) : Async unit := Sync (fun w => (tt, f w)) Ret.
Definition read {A} (f : World -> A) : Async A := Sync (fun w => (f w, w)) Ret.

Definition console_error (label : string) (e : Js.JsError) : Async unit :=
  modify (with_console (fun lines => lines ++ [(label ++ " " ++ e)%string])).

Definition Date_now : Async Z := read clock.

(** How a call ends: it returned, or an exception left it uncaught. *)
Inductive Outcome (A : Type) :=
| Returned (a : A)
| Uncaught (e : Js.JsError).
Arguments Returned {A}.
Arguments Uncaught {A}.

(** Where a call stands after running up to its next suspension point. *)
Inductive Progressed (A : Type) :=
| Finished (o : Outcome A)
| Pending (cmd : Command) (k : Settled (Reply cmd) -> Async A).
Arguments Finished {A}.
Arguments Pending {A}.

(** Runs the synchronous prefix of a call. *)
Fixpoint advance {A} (m : Async A) (w : World) : Progressed A * World :=
  match m with
  | Ret a => (Finished (Returned a), w)
  | Throw e => (Finished (Uncaught e), w)
  | Sync effect k => let '(b, w') := effect w in advance (k b) w'
  | Invoke cmd k => (Pending cmd k, w)
  end.

(** Runs a call to its end against a backend that settles every command
    at once. *)
Definition Backend := forall cmd : Command, Settled (Reply cmd).

Fixpoint run {A} (backend : Backend) (m : Async A) (w : World) : Outcome A * World :=
  match m with
  | Ret a => (Returned a, w)
  | Throw e => (Uncaught e, w)
  | Sync effect k => let '(b, w') := effect w in run backend (k b) w'
  | Invoke cmd k => run backend (k (backend cmd)) w
  end.

Definition exec {A} (backend : Backend) (m : Async A) (w : World) : World :=
  snd (run backend m w).

(** ** stores/imageGeneration: actions *)

Module generationActions.

Definition update (fn : GenerationState -> GenerationState) : Async unit :=
  modify (with_generationStore (Writable.update fn)).

(** The subset of [Partial<GenerationParams>] the components pass. *)
Record PartialParams := mkPartial {
  p_prompt : option string;
  p_img_width : option Z;
  p_img_height : option Z;
  p_num_imgs : option Z;
  p_num_inference_steps : option Z;
  p_guidance_scale : option Q
}.

Definition or_else {A} (o : option A) (d : A) : A :=
  match o with Some v => v | None => d end.

(** [{ ...params, ...newParams }] *)
Definition spread (ps : GenerationParams) (newParams : PartialParams) : GenerationParams :=
  {| prompt := or_else (p_prompt newParams) (prompt ps);
     img_width := or_else (p_img_width newParams) (img_width ps);
     img_height := or_else (p_img_height newParams) (img_height ps);
     num_imgs := or_else (p_num_imgs newParams) (num_imgs ps);
     num_inference_steps := or_else (p_num_inference_steps newParams) (num_inference_steps ps);
     guidance_scale := or_else (p_guidance_scale newParams) (guidance_scale ps) |}.

Definition updateParams (newParams : PartialParams) : Async unit :=
  update (fun store =>
    mkState (spread (params store) newParams) (isGenerating store) (progress store)
            (currentResult store) (error store) (history store)).

Inductive Dimension := width | height.

Definition updateDimension (dimension : Dimension) (value : Z) : Async unit :=
  update (fun store =>
    let ps := params store in
    let ps' :=
      match dimension with
      | width => mkParams (prompt ps) value (img_height ps) (num_imgs ps)
                          (num_inference_steps ps) (guidance_scale ps)
      | height => mkParams (prompt ps) (img_width ps) value (num_imgs ps)
                           (num_inference_steps ps) (guidance_scale ps)
      end in
    mkState ps' (isGenerating store) (progress store)
            (currentResult store) (error store) (history store)).

Definition startGeneration : Async unit :=
  update (fun store =>
    mkState (params store) true
            {| current_step := 0;
               total_steps := num_inference_steps (params store);
               status := "Initializing...";
               is_complete := None;
               is_cancelled := None |}
            (currentResult store) None (history store)).

(** [progress: { ...progress }]: the payload is copied as it is. *)
Definition updateProgress (progress : GenerationProgress) : Async unit :=
  update (fun store =>
    mkState (params store) (isGenerating store) progress
            (currentResult store) (error store) (history store)).

(** [[result, ...store.history].slice(0, 50)] *)
Definition setResult (result : GenerationResult) : Async unit :=
  update (fun store =>
    mkState (params store) false (progress store)
            (Some result) (error store) (firstn 50 (result :: history store))).

Definition setError (error : string) : Async unit :=
  update (fun store =>
    mkState (params store) false (progress store)
            (currentResult store) (Some error) (history store)).

Definition reset : Async unit :=
  update (fun store =>
    mkState defaultParams false
            {| current_step := 0; total_steps := 20; status := "Ready";
               is_complete := None; is_cancelled := None |}
            (currentResult store) None (history store)).

End generationActions.

Module settingsActions.

Definition loadSettings : Async unit :=
  try_catch
    (settings <- await_invoke get_settings ;;
     modify (with_settingsStore (Writable.set settings)) ;;
     generationActions.update (fun store =>
       let ps := params store in
       mkState (mkParams (prompt ps) (default_width settings) (default_height settings)
                         (num_imgs ps) (default_inference_steps settings)
                         (default_guidance_scale settings))
               (isGenerating store) (progress store)
               (currentResult store) (error store) (history store)))
    (fun error => console_error "Failed to load settings:" error).

End settingsActions.

(** ** components/ProgressTracker *)

Module ProgressTracker.

(** [window.setInterval(callback, delay)]: registers the timer and returns
    its handle.  The tracker has a single callback, [poll]. *)
Definition setInterval (delay : Z) : Async Z :=
  Sync (fun w =>
          let id := next_timer w in
          (id, with_timers (id + 1) (timers w ++ [mkTimer id delay]) w))
       Ret.

Definition clearInterval (id : Z) : Async unit :=
  modify (fun w =>
    with_timers (next_timer w) (filter (fun t => negb (timer_id t =? id)) (timers w)) w).

Definition formatTime (milliseconds : Q) : string :=
  let seconds := Qceiling (milliseconds / 1000) in
  if seconds <? 60 then
    (Js.string_of_Z seconds ++ "s")%string
  else if seconds <? 3600 then
    let minutes := seconds / 60 in
    let remainingSeconds := seconds mod 60 in
    (Js.string_of_Z minutes ++ "m " ++ Js.string_of_Z remainingSeconds ++ "s")%string
  else
    let hours := seconds / 3600 in
    let minutes := (seconds mod 3600) / 60 in
    (Js.string_of_Z hours ++ "h " ++ Js.string_of_Z minutes ++ "m")%string.

(** The quantity [updateTimeEstimate] computes before formatting it, as the
    exact quotient and product.  The code computes them in double precision,
    so its value can differ from this one in the last place, and with it the
    second shown when the exact value is a whole number of seconds. *)
Definition estimatedRemaining (elapsed stepsCompleted stepsRemaining : Z) : Q :=
  let timePerStep := (inject_Z elapsed / inject_Z stepsCompleted)%Q in
  (timePerStep * inject_Z stepsRemaining)%Q.

Definition updateTimeEstimate : Async unit :=
  startTime <- read startTime ;;
  progress <- read tracker_progress ;;
  if negb (Js.truthy_number startTime) || (current_step progress =? 0) then
    modify (with_estimatedTimeRemaining "")
  else
    now <- Date_now ;;
    let elapsed := now - match startTime with Some t => t | None => 0 end in
    let stepsCompleted := current_step progress in
    let stepsRemaining := total_steps progress - current_step progress in
    if stepsCompleted >? 0 then
      modify (with_estimatedTimeRemaining
                (formatTime (estimatedRemaining elapsed stepsCompleted stepsRemaining)))
    else Ret tt.

(** The interval callback. *)
Definition poll : Async unit :=
  try_catch
    (progressData <- await_invoke get_generation_progress ;;
     generationActions.updateProgress progressData ;;
     updateTimeEstimate)
    (fun error => console_error "Failed to get progress:" error).

Definition pollInterval : Z := 500.

Definition startProgressPolling : Async unit :=
  now <- Date_now ;;
  modify (with_startTime (Some now)) ;;
  id <- setInterval pollInterval ;;
  modify (with_progressInterval (Some id)).

Definition stopProgressPolling : Async unit :=
  progressInterval <- read progressInterval ;;
  (if Js.truthy_number progressInterval then
     match progressInterval with
     | Some id => clearInterval id ;; modify (with_progressInterval None)
     | None => Ret tt
     end
   else Ret tt) ;;
  modify (with_startTime None) ;;
  modify (with_estimatedTimeRemaining "").

(** The reactive statements: [({ isGenerating, progress } = $generationStore)],
    then the one that starts and stops polling with [isGenerating]. *)
Definition reactive : Async unit :=
  modify (fun w => with_tracker_store (isGenerating (store w)) (progress (store w)) w) ;;
  isGenerating <- read tracker_isGenerating ;;
  progressInterval <- read progressInterval ;;
  if isGenerating && negb (Js.truthy_number progressInterval) then
    startProgressPolling
  else if negb isGenerating && Js.truthy_number progressInterval then
    stopProgressPolling
  else Ret tt.

Definition cancelGeneration : Async unit :=
  try_catch
    (await_invoke cancel_generation ;;
     generationActions.setError "Generation cancelled by user")
    (fun error =>
       console_error "Failed to cancel generation:" error ;;
       generationActions.setError "Failed to cancel generation").

(** [$: progressPercentage = ...], as a function of the component's
    [progress]. *)
Definition progressPercentage (progress : GenerationProgress) : Q :=
  if total_steps progress >? 0
  then (inject_Z (current_step progress) / inject_Z (total_steps progress) * 100)%Q
  else 0%Q.

(** [getProgressColor] and [getProgressStatus] read [progressPercentage];
    here it is their argument. *)
Definition getProgressColor (progressPercentage : Q) : string :=
  if Qle_bool 90 progressPercentage then "var(--accent-primary)"
  else if Qle_bool 70 progressPercentage then "#00d4aa"
  else if Qle_bool 40 progressPercentage then "#ffa726"
  else "#ff6b6b".

Definition getProgressStatus (progressPercentage : Q) : string :=
  if Qle_bool 90 progressPercentage then "Finalizing..."
  else if Qle_bool 70 progressPercentage then "Refining details..."
  else if Qle_bool 40 progressPercentage then "Building image..."
  else if Qle_bool 10 progressPercentage then "Initializing..."
  else "Starting...".

End ProgressTracker.

(** ** components/DimensionInput *)

Module DimensionInput.

Record Preset := mkPreset { name : string; preset_width : Z; preset_height : Z }.

Definition aspectRatios : list Preset :=
  [ mkPreset "Square" 512 512;
    mkPreset "Portrait" 512 682;
    mkPreset "Landscape" 682 512;
    mkPreset "Wide" 768 432 ].

(** The component's [width] and [height]. *)
Definition width : Async Z := read input_width.
Definition height : Async Z := read input_height.

(** The reactive statements [$: width = params.img_width] and
    [$: height = params.img_height], run when the store has changed. *)
Definition reactive : Async unit :=
  modify (fun w => with_input_width (img_width (params (store w))) w) ;;
  modify (fun w => with_input_height (img_height (params (store w))) w).

(** [bind:value={width}] and [bind:value={height}]: what is typed into a
    number input is written to the variable, here for whole numbers. *)
Definition bind_width (typed : Z) : Async unit := modify (with_input_width typed).
Definition bind_height (typed : Z) : Async unit := modify (with_input_height typed).

Definition updateDimensions (newWidth newHeight : Z) : Async unit :=
  generationActions.updateDimension generationActions.width newWidth ;;
  generationActions.updateDimension generationActions.height newHeight.

Definition applyAspectRatio (preset : Preset) : Async unit :=
  updateDimensions (preset_width preset) (preset_height preset).

Definition validateDimension (value : string) : bool :=
  let num := Js.parseInt value in
  negb (Js.isNaN num) &&
  match num with Some n => (n >=? 256) && (n <=? 1024) | None => false end.

(** [value] is [event.target.value]. *)
Definition handleWidthChange (value : string) : Async unit :=
  let newWidth := Js.parseInt value in
  if validateDimension value then
    match newWidth with
    | Some n => h <- height ;; updateDimensions n h
    | None => Ret tt
    end
  else Ret tt.

Definition handleHeightChange (value : string) : Async unit :=
  let newHeight := Js.parseInt value in
  if validateDimension value then
    match newHeight with
    | Some n => w <- width ;; updateDimensions w n
    | None => Ret tt
    end
  else Ret tt.

End DimensionInput.

(** ** components/AdvancedControls *)

Module AdvancedControls.

Definition updateInferenceSteps (value : Z) : Async unit :=
  generationActions.updateParams
    (generationActions.mkPartial None None None None (Some value) None).

Definition updateGuidanceScale (value : Q) : Async unit :=
  generationActions.updateParams
    (generationActions.mkPartial None None None None None (Some value)).

Definition resetToDefaults : Async unit :=
  updateInferenceSteps 20 ;; updateGuidanceScale (75 # 10).

End AdvancedControls.

(** ** components/ImageGenerator *)

Module ImageGenerator.

(** [prompt] is the component's text-area variable; [width] and [height]
    are kept by the store subscription. *)
Definition handlePromptInput (value : string) : Async unit :=
  generationActions.updateParams
    (generationActions.mkPartial (Some value) None None None None None).

(** The [request] object handed to [generate_image]. *)
Definition request (prompt : string) (width height : Z) : GenerationParams :=
  {| prompt := prompt;
     img_width := width;
     img_height := height;
     num_imgs := 1;
     num_inference_steps := 20;
     guidance_scale := 75 # 10 |}.

Definition handleGenerate (prompt : string) : Async unit :=
  if negb (Js.truthy_string (Js.trim prompt)) then
    generationActions.setError "Please enter a prompt"
  else
    try_catch
      (generationActions.startGeneration ;;
       width <- read (fun w => img_width (params (store w))) ;;
       height <- read (fun w => img_height (params (store w))) ;;
       result <- await_invoke (generate_image (request prompt width height)) ;;
       generationActions.setResult result)
      (fun err => generationActions.setError err).

Definition handleCancel : Async unit :=
  try_catch
    (await_invoke cancel_generation ;;
     generationActions.setError "Generation cancelled")
    (fun err => generationActions.setError err).

End ImageGenerator.

(** ** The event loop

    Handlers run their synchronous prefix when dispatched; a handler that
    reaches [await invoke(...)] is parked until the backend settles the call,
    and other handlers run in between.  The components' reactive statements
    are handlers of their own: they run after the handler that changed the
    store has returned, not in the middle of it. *)

Inductive Handler :=
| PromptInput (value : string)               (* ImageGenerator.handlePromptInput *)
| Generate (prompt : string)                 (* ImageGenerator.handleGenerate *)
| Cancel                                     (* ImageGenerator.handleCancel *)
| TrackerCancel                              (* ProgressTracker.cancelGeneration *)
| WidthTyped (typed : Z)                     (* DimensionInput: bind:value={width} *)
| HeightTyped (typed : Z)                    (* DimensionInput: bind:value={height} *)
| WidthChange (value : string)               (* DimensionInput.handleWidthChange *)
| HeightChange (value : string)              (* DimensionInput.handleHeightChange *)
| DimensionsReactive                         (* DimensionInput's reactive statements *)
| ApplyPreset (index : nat)                  (* click on the index-th preset *)
| InferenceSteps (value : Z)                 (* AdvancedControls.updateInferenceSteps *)
| GuidanceScale (value : Q)                  (* AdvancedControls.updateGuidanceScale *)
| ResetControls                              (* AdvancedControls.resetToDefaults *)
| Mount                                      (* onMount: settingsActions.loadSettings *)
| Reactive                                   (* ProgressTracker's reactive statements *)
| TimerFires (id : Z)                        (* an interval comes due *)
| Destroy                                    (* onDestroy: stopProgressPolling *)
| Reset                                      (* generationActions.reset *)
| TimePasses (now : Z).                      (* the wall clock moves *)

Definition handler (h : Handler) : Async unit :=
  match h with
  | PromptInput value => ImageGenerator.handlePromptInput value
  | Generate prompt => ImageGenerator.handleGenerate prompt
  | Cancel => ImageGenerator.handleCancel
  | TrackerCancel => ProgressTracker.cancelGeneration
  | WidthTyped typed => DimensionInput.bind_width typed
  | HeightTyped typed => DimensionInput.bind_height typed
  | WidthChange value => DimensionInput.handleWidthChange value
  | HeightChange value => DimensionInput.handleHeightChange value
  | DimensionsReactive => DimensionInput.reactive
  | ApplyPreset index =>
      match nth_error DimensionInput.aspectRatios index with
      | Some preset => DimensionInput.applyAspectRatio preset
      | None => Ret tt
      end
  | InferenceSteps value => AdvancedControls.updateInferenceSteps value
  | GuidanceScale value => AdvancedControls.updateGuidanceScale value
  | ResetControls => AdvancedControls.resetToDefaults
  | Mount => settingsActions.loadSettings
  | Reactive => ProgressTracker.reactive
  | TimerFires id =>
      live <- read (fun w => existsb (fun t => timer_id t =? id) (timers w)) ;;
      if live then ProgressTracker.poll else Ret tt
  | Destroy => ProgressTracker.stopProgressPolling
  | Reset => generationActions.reset
  | TimePasses now => modify (with_clock now)
  end.

(** A handler parked at an [await]. *)
Record Task := mkTask {
  task_cmd : Command;
  task_k : Settled (Reply task_cmd) -> Async unit
}.

Record System := mkSystem {
  world : World;
  pending : list Task;
  unhandled : list Js.JsError   (* exceptions that left a handler uncaught *)
}.

Definition initialSystem : System :=
  {| world := initialWorld; pending := []; unhandled := [] |}.

Definition dispatch (m : Async unit) (s : System) : System :=
  match advance m (world s) with
  | (Finished (Returned _), w) => mkSystem w (pending s) (unhandled s)
  | (Finished (Uncaught e), w) => mkSystem w (pending s) (unhandled s ++ [e])
  | (Pending cmd k, w) => mkSystem w (pending s ++ [mkTask cmd k]) (unhandled s)
  end.

Fixpoint remove_nth {A} (n : nat) (l : list A) : list A :=
  match n, l with
  | _, [] => []
  | O, _ :: rest => rest
  | S n', x :: rest => x :: remove_nth n' rest
  end.

Inductive Event :=
| Dispatch (h : Handler)
| Settle (index : nat) (backend : Backend).   (* the index-th parked call settles *)

Definition step (s : System) (e : Event) : System :=
  match e with
  | Dispatch h => dispatch (handler h) s
  | Settle index backend =>
      match nth_error (pending s) index with
      | Some t =>
          dispatch (task_k t (backend (task_cmd t)))
                   (mkSystem (world s) (remove_nth index (pending s)) (unhandled s))
      | None => s
      end
  end.

Definition steps (s : System) (es : list Event) : System := fold_left step es s.

(** A backend that settles one command in a given way and rejects the
    others. *)
Definition rejecting : Backend := fun _ => Rejected "unavailable"%string.

Definition answering_progress (r : Settled GenerationProgress) : Backend :=
  fun cmd =>
    match cmd return Settled (Reply cmd) with
    | get_generation_progress => r
    | _ => Rejected "unavailable"%string
    end.

Definition answering_result (r : Settled GenerationResult) : Backend :=
  fun cmd =>
    match cmd return Settled (Reply cmd) with
    | generate_image _ => r
    | _ => Rejected "unavailable"%string
    end.

Definition answering_cancel (r : Settled unit) : Backend :=
  fun cmd =>
    match cmd return Settled (Reply cmd) with
    | cancel_generation => r
    | _ => Rejected "unavailable"%string
    end.

Definition answering_settings (r : Settled AppSettings) : Backend :=
  fun cmd =>
    match cmd return Settled (Reply cmd) with
    | get_settings => r
    | _ => Rejected "unavailable"%string
    end.

(** ** Properties of states and payloads *)

(** [current_step <= total_steps] *)
Definition within_total (p : GenerationProgress) : bool :=
  current_step p <=? total_steps p.

Definition dimension_ok (n : Z) : bool := (256 <=? n) && (n <=? 1024).

Definition dimensions_ok (ps : GenerationParams) : bool :=
  dimension_ok (img_width ps) && dimension_ok (img_height ps).

(** Applies a list of progress payloads, first to last. *)
Fixpoint updateProgressAll (ps : list GenerationProgress) : Async unit :=
  match ps with
  | [] => Ret tt
  | p :: rest => generationActions.updateProgress p ;; updateProgressAll rest
  end.

(** Step counts never go down along the list. *)
Fixpoint nondecreasing (ps : list GenerationProgress) : bool :=
  match ps with
  | [] => true
  | p :: rest =>
      match rest with
      | [] => true
      | q :: _ => (current_step p <=? current_step q) && nondecreasing rest
      end
  end.

Definition bounded_by (total : Z) (ps : list GenerationProgress) : bool :=
  forallb (fun p => current_step p <=? total) ps.

(** ** The worker line protocol *)

Module Protocol.

(** Payloads are flat JSON objects whose members are numbers or strings;
    the members are kept in the order they are written. *)
Inductive JValue :=
| JNumber (q : Q)
| JString (s : string).

Definition JObject := list (string * JValue).

Definition keys (o : JObject) : list string := map fst o.

Fixpoint lookup (key : string) (o : JObject) : option JValue :=
  match o with
  | [] => None
  | (k, v) :: rest => if String.eqb k key then Some v else lookup key rest
  end.

Definition dquote : ascii := "034"%char.

Definition hex_digit (n : N) : ascii :=
  ascii_of_N (if (n <? 10)%N then 48 + n else 87 + n)%N.

(** JSON string escaping: the quote, the backslash and every control
    character are written as escape sequences. *)
Definition escape_char (c : ascii) : string :=
  let n := N_of_ascii c in
  if (n =? 34)%N then String "\" (String dquote EmptyString)
  else if (n =? 92)%N then "\\"
  else if (n =? 8)%N then "\b"
  else if (n =? 9)%N then "\t"
  else if (n =? 10)%N then "\n"
  else if (n =? 12)%N then "\f"
  else if (n =? 13)%N then "\r"
  else if (n <? 32)%N then
    String "\" (String "u" (String "0" (String "0"
      (String (hex_digit (n / 16)) (String (hex_digit (n mod 16)) EmptyString)))))
  else String c EmptyString.

Fixpoint escape (s : string) : string :=
  match s with
  | EmptyString => EmptyString
  | String c rest => (escape_char c ++ escape rest)%string
  end.

Definition quote (s : string) : string :=
  String dquote (escape s ++ String dquote EmptyString)%string.

(** Decimal digits of [r / d] after the point, at most [fuel] of them. *)
Fixpoint fraction_digits (fuel : nat) (r d : Z) : string :=
  match fuel with
  | O => EmptyString
  | S fuel' =>
      if r =? 0 then EmptyString
      else (Js.string_of_Z ((10 * r) / d) ++ fraction_digits fuel' ((10 * r) mod d) d)%string
  end.

Definition render_number (q : Q) : string :=
  let n := Qnum q in
  let d := Z.pos (Qden q) in
  let a := Z.abs n in
  let whole := Js.string_of_Z (a / d) in
  let sign := if n <? 0 then "-"%string else EmptyString in
  if a mod d =? 0 then (sign ++ whole)%string
  else (sign ++ whole ++ "." ++ fraction_digits 17 (a mod d) d)%string.

Definition render_value (v : JValue) : string :=
  match v with
  | JNumber q => render_number q
  | JString s => quote s
  end.

Fixpoint render_members (o : JObject) : string :=
  match o with
  | [] => EmptyString
  | (k, v) :: rest =>
      let member := (quote k ++ ":" ++ render_value v)%string in
      match rest with
      | [] => member
      | _ => (member ++ "," ++ render_members rest)%string
      end
  end.

(** Modelled from the spec: the JSON encoding of a payload object, done in
    the Tauri backend; members are written in order, with no white space
    between tokens. *)
Definition stringify (o : JObject) : string :=
  ("{" ++ render_members o ++ "}")%string.

(** The [request] object of [handleGenerate], property by property. *)
Definition json_of_request (r : GenerationParams) : JObject :=
  [ ("prompt"%string, JString (prompt r));
    ("img_width"%string, JNumber (inject_Z (img_width r)));
    ("img_height"%string, JNumber (inject_Z (img_height r)));
    ("num_imgs"%string, JNumber (inject_Z (num_imgs r)));
    ("num_inference_steps"%string, JNumber (inject_Z (num_inference_steps r)));
    ("guidance_scale"%string, JNumber (guidance_scale r)) ].

(** A [GenerationResult], property by property. *)
Definition json_of_result (r : GenerationResult) : JObject :=
  ("generated_img_path"%string, JString (generated_img_path r)) ::
  match aux_output_image_path r with
  | Some p => [("aux_output_image_path"%string, JString p)]
  | None => []
  end.

Definition newline : ascii := "010"%char.

(** Modelled from the spec: the Protocol Codec's Encode, which lives in the
    Tauri backend.  A line is a 4-character marker, a space, a 4-character
    code, a space, the JSON-encoded payload object, and a newline. *)
Definition encode (marker code : string) (payload : JObject) : string :=
  (marker ++ " " ++ code ++ " " ++ stringify payload ++ String newline EmptyString)%string.

(** Modelled from the spec: the outbound text-to-image command, source
    marker [b2py] and command code [t2im]. *)
Definition text_to_image (request : GenerationParams) : string :=
  encode "b2py" "t2im" (json_of_request request).

(** Modelled from the spec: the worker's result line, destination marker
    [sdbk] and response code [nwim]. *)
Definition new_image (result : GenerationResult) : string :=
  encode "sdbk" "nwim" (json_of_result result).

(** Splits at the first space. *)
Fixpoint token (s : string) : option (string * string) :=
  match s with
  | EmptyString => None
  | String c rest =>
      if Ascii.eqb c " " then Some (EmptyString, rest)
      else match token rest with
           | Some (t, r) => Some (String c t, r)
           | None => None
           end
  end.

(** Removes the terminating newline; [None] when the text does not end in
    one or holds another one before it. *)
Fixpoint chomp (s : string) : option string :=
  match s with
  | EmptyString => None
  | String c rest =>
      if Ascii.eqb c newline then
        match rest with EmptyString => Some EmptyString | _ => None end
      else match chomp rest with
           | Some r => Some (String c r)
           | None => None
           end
  end.

(** Modelled from the spec: the framing half of the Protocol Codec's
    Decode, which lives in the Tauri backend.  It yields the marker, the
    code and the payload text of one line, and fails when the line does not
    have the three-part shape. *)
Definition decode_frame (line : string) : option (string * string * string) :=
  match token line with
  | Some (marker, rest) =>
      match token rest with
      | Some (code, rest') =>
          match chomp rest' with
          | Some payload =>
              if (String.length marker =? 4)%nat && (String.length code =? 4)%nat
              then Some (marker, code, payload)
              else None
          | None => None
          end
      | None => None
      end
  | None => None
  end.

Fixpoint count_newlines (s : string) : nat :=
  match s with
  | EmptyString => O
  | String c rest => ((if Ascii.eqb c newline then 1 else 0) + count_newlines rest)%nat
  end.

(** *** Reading a payload

    Modelled from the spec: the other half of Decode, which fails when "the
    JSON fails to parse".  The reader below follows the JSON grammar on the
    bytes of the payload and knows nothing of how [stringify] writes them.
    A number is kept as its literal text. *)
#[warnings="-register-all"] Inductive Json :=
| VNull
| VBool (b : bool)
| VNumber (literal : string)
| VString (s : string)
| VArray (items : list Json)
| VObject (members : list (string * Json)).

Definition is_json_space (c : ascii) : bool :=
  let n := N_of_ascii c in
  ((n =? 32) || (n =? 9) || (n =? 10) || (n =? 13))%N.

Fixpoint skip_space (s : string) : string :=
  match s with
  | EmptyString => EmptyString
  | String c rest => if is_json_space c then skip_space rest else s
  end.

Definition is_digit (c : ascii) : bool :=
  let n := N_of_ascii c in
  ((48 <=? n) && (n <=? 57))%N.

(** The longest prefix of digits, and what follows it. *)
Fixpoint take_digits (s : string) : string * string :=
  match s with
  | EmptyString => (EmptyString, EmptyString)
  | String c rest =>
      if is_digit c then
        let (digits, rest') := take_digits rest in (String c digits, rest')
      else (EmptyString, s)
  end.

Definition scan_fraction (s : string) : option (string * string) :=
  match s with
  | EmptyString => Some (EmptyString, s)
  | String c rest =>
      if Ascii.eqb c "." then
        let (digits, rest') := take_digits rest in
        match digits with
        | EmptyString => None
        | _ => Some (String c digits, rest')
        end
      else Some (EmptyString, s)
  end.

Definition scan_exponent (s : string) : option (string * string) :=
  match s with
  | EmptyString => Some (EmptyString, s)
  | String c rest =>
      if Ascii.eqb c "e" || Ascii.eqb c "E" then
        let (sign, rest1) :=
          match rest with
          | String c1 rest' =>
              if Ascii.eqb c1 "+" || Ascii.eqb c1 "-"
              then (String c1 EmptyString, rest')
              else (EmptyString, rest)
          | EmptyString => (EmptyString, rest)
          end in
        let (digits, rest2) := take_digits rest1 in
        match digits with
        | EmptyString => None
        | _ => Some (String c (sign ++ digits)%string, rest2)
        end
      else Some (EmptyString, s)
  end.

(** A JSON number: an optional minus sign, digits with no leading zero, an
    optional fraction and an optional exponent. *)
Definition scan_number (s : string) : option (string * string) :=
  let (sign, s1) :=
    match s with
    | String c rest =>
        if Ascii.eqb c "-" then (String c EmptyString, rest) else (EmptyString, s)
    | EmptyString => (EmptyString, s)
    end in
  let (whole, s2) := take_digits s1 in
  match whole with
  | EmptyString => None
  | String d more =>
      if Ascii.eqb d "0" && negb (String.eqb more EmptyString) then None
      else
        match scan_fraction s2 with
        | None => None
        | Some (fraction, s3) =>
            match scan_exponent s3 with
            | None => None
            | Some (exponent, s4) => Some ((sign ++ whole ++ fraction ++ exponent)%string, s4)
            end
        end
  end.

Definition hex_value (c : ascii) : option N :=
  let n := N_of_ascii c in
  if ((48 <=? n) && (n <=? 57))%N then Some (n - 48)%N
  else if ((97 <=? n) && (n <=? 102))%N then Some (n - 87)%N
  else if ((65 <=? n) && (n <=? 70))%N then Some (n - 55)%N
  else None.

(** The 16-bit code unit written by the four hex digits of a [\u] escape. *)
Definition code_unit (h1 h2 h3 h4 : ascii) : option N :=
  match hex_value h1, hex_value h2, hex_value h3, hex_value h4 with
  | Some a, Some b, Some c, Some d => Some (((a * 16 + b) * 16 + c) * 16 + d)%N
  | _, _, _, _ => None
  end.

Definition is_high_surrogate (n : N) : bool := ((55296 <=? n) && (n <=? 56319))%N.
Definition is_low_surrogate (n : N) : bool := ((56320 <=? n) && (n <=? 57343))%N.

(** The UTF-8 bytes of a code point. *)
Definition utf8 (n : N) : string :=
  let byte (k : N) := ascii_of_N k in
  let tail (k : N) := byte (128 + k mod 64)%N in
  if (n <? 128)%N then String (byte n) EmptyString
  else if (n <? 2048)%N then
    String (byte (192 + n / 64)%N) (String (tail n) EmptyString)
  else if (n <? 65536)%N then
    String (byte (224 + n / 4096)%N)
      (String (tail (n / 64)%N) (String (tail n) EmptyString))
  else
    String (byte (240 + n / 262144)%N)
      (String (tail (n / 4096)%N)
         (String (tail (n / 64)%N) (String (tail n) EmptyString))).

Definition simple_escape (e : ascii) : option ascii :=
  if Ascii.eqb e dquote then Some dquote
  else if Ascii.eqb e "\" then Some "\"%char
  else if Ascii.eqb e "/" then Some "/"%char
  else if Ascii.eqb e "b" then Some "008"%char
  else if Ascii.eqb e "f" then Some "012"%char
  else if Ascii.eqb e "n" then Some "010"%char
  else if Ascii.eqb e "r" then Some "013"%char
  else if Ascii.eqb e "t" then Some "009"%char
  else None.

(** The text of a string literal, read from just after its opening quote up
    to its closing quote, with what follows.  A raw control character, an
    unknown escape and a surrogate half without its other half are
    errors. *)
Fixpoint scan_string (s : string) : option (string * string) :=
  match s with
  | EmptyString => None
  | String c rest =>
      if Ascii.eqb c dquote then Some (EmptyString, rest)
      else if Ascii.eqb c "\" then
        match rest with
        | EmptyString => None
        | String e rest1 =>
            if Ascii.eqb e "u" then
              match rest1 with
              | String h1 (String h2 (String h3 (String h4 rest5))) =>
                  match code_unit h1 h2 h3 h4 with
                  | None => None
                  | Some n =>
                      if is_high_surrogate n then
                        match rest5 with
                        | String b (String u (String l1 (String l2
                            (String l3 (String l4 rest11))))) =>
                            if Ascii.eqb b "\" && Ascii.eqb u "u" then
                              match code_unit l1 l2 l3 l4 with
                              | None => None
                              | Some m =>
                                  if is_low_surrogate m then
                                    match scan_string rest11 with
                                    | Some (t, r) =>
                                        Some ((utf8 (65536 + (n - 55296) * 1024
                                                       + (m - 56320))
                                               ++ t)%string, r)
                                    | None => None
                                    end
                                  else None
                              end
                            else None
                        | _ => None
                        end
                      else if is_low_surrogate n then None
                      else
                        match scan_string rest5 with
                        | Some (t, r) => Some ((utf8 n ++ t)%string, r)
                        | None => None
                        end
                  end
              | _ => None
              end
            else
              match simple_escape e with
              | None => None
              | Some a =>
                  match scan_string rest1 with
                  | Some (t, r) => Some (String a t, r)
                  | None => None
                  end
              end
        end
      else if (N_of_ascii c <? 32)%N then None
      else
        match scan_string rest with
        | Some (t, r) => Some (String c t, r)
        | None => None
        end
  end.

Fixpoint strip_prefix (prefix s : string) : option string :=
  match prefix with
  | EmptyString => Some s
  | String a prefix' =>
      match s with
      | String b s' => if Ascii.eqb a b then strip_prefix prefix' s' else None
      | EmptyString => None
      end
  end.

(** [true], [false], [null] or a number. *)
Definition scan_literal (s : string) : option (Json * string) :=
  match strip_prefix "true" s with
  | Some rest => Some (VBool true, rest)
  | None =>
      match strip_prefix "false" s with
      | Some rest => Some (VBool false, rest)
      | None =>
          match strip_prefix "null" s with
          | Some rest => Some (VNull, rest)
          | None =>
              match scan_number s with
              | Some (literal, rest) => Some (VNumber literal, rest)
              | None => None
              end
          end
      end
  end.

(** [closes c s]: what follows when the next token of [s] is the closing
    bracket [c]. *)
Definition closes (c : ascii) (s : string) : option string :=
  match skip_space s with
  | String c' rest => if Ascii.eqb c' c then Some rest else None
  | EmptyString => None
  end.

(** The elements of a non-empty array, after its opening bracket; [value]
    reads one element. *)
Fixpoint parse_elements (fuel : nat) (value : string -> option (Json * string))
         (s : string) : option (list Json * string) :=
  match fuel with
  | O => None
  | S fuel' =>
      match value s with
      | None => None
      | Some (v, rest) =>
          match skip_space rest with
          | EmptyString => None
          | String c rest' =>
              if Ascii.eqb c "," then
                match parse_elements fuel' value rest' with
                | Some (vs, r) => Some (v :: vs, r)
                | None => None
                end
              else if Ascii.eqb c "]" then Some ([v], rest')
              else None
          end
      end
  end.

(** The members of a non-empty object, after its opening brace. *)
Fixpoint parse_members (fuel : nat) (value : string -> option (Json * string))
         (s : string) : option (list (string * Json) * string) :=
  match fuel with
  | O => None
  | S fuel' =>
      match skip_space s with
      | EmptyString => None
      | String q rest =>
          if Ascii.eqb q dquote then
            match scan_string rest with
            | None => None
            | Some (key, rest1) =>
                match skip_space rest1 with
                | EmptyString => None
                | String colon rest2 =>
                    if Ascii.eqb colon ":" then
                      match value rest2 with
                      | None => None
                      | Some (v, rest3) =>
                          match skip_space rest3 with
                          | EmptyString => None
                          | String c rest4 =>
                              if Ascii.eqb c "," then
                                match parse_members fuel' value rest4 with
                                | Some (ms, r) => Some ((key, v) :: ms, r)
                                | None => None
                                end
                              else if Ascii.eqb c "}" then Some ([(key, v)], rest4)
                              else None
                          end
                      end
                    else None
                end
            end
          else None
      end
  end.

(** One value and what follows it.  [fuel] bounds the nesting depth; the
    loops over members and elements are bounded by the length of the text
    still to read. *)
Fixpoint parse_value (fuel : nat) (s : string) : option (Json * string) :=
  match fuel with
  | O => None
  | S fuel' =>
      match skip_space s with
      | EmptyString => None
      | String c rest =>
          if Ascii.eqb c "{" then
            match closes "}" rest with
            | Some rest' => Some (VObject [], rest')
            | None =>
                match parse_members (String.length rest) (parse_value fuel') rest with
                | Some (ms, rest') => Some (VObject ms, rest')
                | None => None
                end
            end
          else if Ascii.eqb c "[" then
            match closes "]" rest with
            | Some rest' => Some (VArray [], rest')
            | None =>
                match parse_elements (String.length rest) (parse_value fuel') rest with
                | Some (vs, rest') => Some (VArray vs, rest')
                | None => None
                end
            end
          else if Ascii.eqb c dquote then
            match scan_string rest with
            | Some (t, rest') => Some (VString t, rest')
            | None => None
            end
          else scan_literal (String c rest)
      end
  end.

(** A whole text is one value, with nothing but white space after it. *)
Definition parse (text : string) : option Json :=
  match parse_value (S (String.length text)) text with
  | Some (v, rest) =>
      match skip_space rest with
      | EmptyString => Some v
      | _ => None
      end
  | None => None
  end.

(** Modelled from the spec: Decode, from a line to its marker, its code and
    its payload. *)
Definition decode (line : string) : option (string * string * Json) :=
  match decode_frame line with
  | Some (marker, code, payload) =>
      match parse payload with
      | Some v => Some (marker, code, v)
      | None => None
      end
  | None => None
  end.

(** The value of a member; of two members with one name the later one
    counts. *)
Fixpoint member (key : string) (ms : list (string * Json)) : option Json :=
  match ms with
  | [] => None
  | (k, v) :: rest =>
      match member key rest with
      | Some v' => Some v'
      | None => if String.eqb k key then Some v else None
      end
  end.

Definition string_member (key : string) (ms : list (string * Json)) : option string :=
  match member key ms with
  | Some (VString s) => Some s
  | _ => None
  end.

(** Modelled from the spec: a line is a result line when it decodes with
    the destination marker [sdbk] and the response code [nwim] to an object
    that holds the image path; the [GenerationResult] is read off its
    members. *)
Definition decode_result (line : string) : option GenerationResult :=
  match decode line with
  | Some (marker, code, VObject ms) =>
      if String.eqb marker "sdbk" && String.eqb code "nwim" then
        match string_member "generated_img_path" ms with
        | Some path =>
            Some (mkResult path (string_member "aux_output_image_path" ms))
        | None => None
        end
      else None
  | _ => None
  end.

(** What the reader makes of a payload object written by [stringify]. *)
Definition read_value (v : JValue) : Json :=
  match v with
  | JNumber q => VNumber (render_number q)
  | JString s => VString s
  end.

Definition read_object (o : JObject) : list (string * Json) :=
  map (fun m => (fst m, read_value (snd m))) o.

(** The text [s] between double quotes, as it stands. *)
Definition quoted (s : string) : string :=
  String dquote (s ++ String dquote EmptyString)%string.

(** The result line that the worker's README gives as its example. *)
Definition readme_result_line : string :=
  ("sdbk nwim {" ++ quoted "generated_img_path" ++ ": " ++ quoted "/path/to/image.png"
     ++ "}" ++ String newline EmptyString)%string.

Fixpoint all_digits (s : string) : bool :=
  match s with
  | EmptyString => true
  | String c rest => is_digit c && all_digits rest
  end.

(** The characters at which the reading of a number stops. *)
Definition ends_number (c : ascii) : bool :=
  negb (is_digit c || Ascii.eqb c "." || Ascii.eqb c "e" || Ascii.eqb c "E").

End Protocol.

(** ** Safety of handlers with respect to an invariant of the page *)

(** What the backend is taken to answer to each command. *)
Definition Answers := forall cmd : Command, Settled (Reply cmd) -> Prop.

(** Every synchronous effect of [m] keeps [I], under any [good] answers of
    the backend; [m] may still throw. *)
Fixpoint keeps {A} (I : World -> Prop) (good : Answers) (m : Async A) : Prop :=
  match m with
  | Ret _ => True
  | Throw _ => True
  | Sync effect k =>
      forall w, I w -> I (snd (effect w)) /\ keeps I good (k (fst (effect w)))
  | Invoke cmd k => forall r, good cmd r -> keeps I good (k r)
  end.

(** As [keeps], and no exception leaves [m]. *)
Fixpoint safe {A} (I : World -> Prop) (good : Answers) (m : Async A) : Prop :=
  match m with
  | Ret _ => True
  | Throw _ => False
  | Sync effect k =>
      forall w, I w -> I (snd (effect w)) /\ safe I good (k (fst (effect w)))
  | Invoke cmd k => forall r, good cmd r -> safe I good (k r)
  end.

Definition task_safe (I : World -> Prop) (good : Answers) (t : Task) : Prop :=
  forall r, good (task_cmd t) r -> safe I good (task_k t r).

Definition system_ok (I : World -> Prop) (good : Answers) (s : System) : Prop :=
  I (world s) /\ Forall (task_safe I good) (pending s) /\ unhandled s = [].

Definition event_ok (good : Answers) (allowed : Handler -> Prop) (e : Event) : Prop :=
  match e with
  | Dispatch h => allowed h
  | Settle _ backend => forall cmd, good cmd (backend cmd)
  end.

(** The invariants of the claims and the answers they rely on. *)

Definition dimensions_inv (w : World) : Prop :=
  dimensions_ok (params (store w)) = true /\
  dimension_ok (input_width w) = true /\
  dimension_ok (input_height w) = true.

(** Only numbers within the range are typed into the dimension inputs. *)
Definition typed_in_range (h : Handler) : Prop :=
  match h with
  | WidthTyped typed => dimension_ok typed = true
  | HeightTyped typed => dimension_ok typed = true
  | _ => True
  end.

Definition settings_in_range : Answers :=
  fun cmd =>
    match cmd return Settled (Reply cmd) -> Prop with
    | get_settings => fun r =>
        match r with
        | Resolved settings =>
            dimension_ok (default_width settings) = true /\
            dimension_ok (default_height settings) = true
        | Rejected _ => True
        end
    | _ => fun _ => True
    end.

Definition progress_inv (w : World) : Prop :=
  within_total (progress (store w)) = true /\
  0 <= num_inference_steps (params (store w)).

Definition payloads_within_total : Answers :=
  fun cmd =>
    match cmd return Settled (Reply cmd) -> Prop with
    | get_generation_progress => fun r =>
        match r with
        | Resolved p => within_total p = true
        | Rejected _ => True
        end
    | get_settings => fun r =>
        match r with
        | Resolved settings => 0 <= default_inference_steps settings
        | Rejected _ => True
        end
    | _ => fun _ => True
    end.

Definition steps_nonnegative (h : Handler) : Prop :=
  match h with
  | InferenceSteps value => 0 <= value
  | _ => True
  end.

Definition any_answer : Answers := fun _ _ => True.
Definition any_handler (h : Handler) : Prop := True.

(** Further invariants of the page. *)

(** While a generation is shown as running, no error is shown. *)
Definition running_without_error (w : World) : Prop :=
  isGenerating (store w) = true -> error (store w) = None.

Definition history_bounded (w : World) : Prop :=
  (List.length (history (store w)) <= 50)%nat.

(** The tracker owns at most one interval: the one [progressInterval] names,
    with the polling delay. *)
Definition single_interval (w : World) : Prop :=
  1 <= next_timer w /\
  match progressInterval w with
  | None => timers w = []
  | Some id =>
      1 <= id < next_timer w /\ timers w = [mkTimer id ProgressTracker.pollInterval]
  end.

(** [m], started in [w], leaves the page in a state satisfying [I] whenever
    it stops: at each [await], and at its end.  After an [await] it resumes
    in any state satisfying [I], since other handlers ran meanwhile. *)
Fixpoint ends_keeping {A} (I : World -> Prop) (m : Async A) (w : World) : Prop :=
  match m with
  | Ret _ => I w
  | Throw _ => I w
  | Sync effect k => ends_keeping I (k (fst (effect w))) (snd (effect w))
  | Invoke cmd k => I w /\ forall r w', I w' -> ends_keeping I (k r) w'
  end.

Definition task_keeps (I : World -> Prop) (t : Task) : Prop :=
  forall r w, I w -> ends_keeping I (task_k t r) w.

Definition system_keeps (I : World -> Prop) (s : System) : Prop :=
  I (world s) /\ Forall (task_keeps I) (pending s).

(* ================================================================== *)
(** * Proofs *)

(** ** The primitives on sample inputs *)

Example parseInt_samples :
  map Js.parseInt ["512"; "  300px"; "0x200"; "-7"; "12.5"; "abc"; ""]%string =
  [Some 512; Some 300; Some 512; Some (-7); Some 12; None; None].
Proof. reflexivity. Qed.

Example validateDimension_samples :
  map DimensionInput.validateDimension ["256"; "1024"; "255"; "1025"; "5000"; ""]%string =
  [true; true; false; false; false; false].
Proof. reflexivity. Qed.

Example trim_samples :
  map Js.trim ["  a cat "; "   "; ""]%string = ["a cat"; ""; ""]%string.
Proof. reflexivity. Qed.

Example formatTime_samples :
  map ProgressTracker.formatTime [30000 # 1; 30001 # 1; 300000 # 1; 4260000 # 1; 0 # 1] =
  ["30s"; "31s"; "5m 0s"; "1h 11m"; "0s"]%string.
Proof. reflexivity. Qed.

(** ** Running asynchronous bodies *)

Lemma run_bind {A B} (backend : Backend) (m : Async A) (f : A -> Async B) (w : World) :
  run backend (bind m f) w =
  match run backend m w with
  | (Returned a, w') => run backend (f a) w'
  | (Uncaught e, w') => (Uncaught e, w')
  end.
Proof.
  revert w. induction m as [a | e | C effect k IH | cmd k IH]; intros w; simpl.
  - reflexivity.
  - reflexivity.
  - destruct (effect w) as [b w']. apply IH.
  - apply IH.
Qed.

Lemma run_update (backend : Backend) (fn : GenerationState -> GenerationState) (w : World) :
  run backend (generationActions.update fn) w =
  (Returned tt, with_generationStore (Writable.update fn) w).
Proof. reflexivity. Qed.

Lemma store_update (fn : GenerationState -> GenerationState) (w : World) :
  store (with_generationStore (Writable.update fn) w) = fn (store w).
Proof. reflexivity. Qed.

(** ** Safety is compositional *)

Section Safety.

Variable I : World -> Prop.
Variable good : Answers.

Lemma safe_keeps {A} (m : Async A) : safe I good m -> keeps I good m.
Proof.
  induction m as [a | e | C effect k IH | cmd k IH]; simpl; intros H.
  - exact Logic.I.
  - exact Logic.I.
  - intros w Hw. destruct (H w Hw) as [H1 H2]. split; [exact H1 | apply IH; exact H2].
  - intros r Hr. apply IH. apply H. exact Hr.
Qed.

Lemma keeps_bind {A B} (m : Async A) (f : A -> Async B) :
  keeps I good m -> (forall a, keeps I good (f a)) -> keeps I good (bind m f).
Proof.
  induction m as [a | e | C effect k IH | cmd k IH]; simpl; intros Hm Hf.
  - apply Hf.
  - exact Logic.I.
  - intros w Hw. destruct (Hm w Hw) as [H1 H2]. split; [exact H1 | apply IH; assumption].
  - intros r Hr. apply IH; [apply Hm; exact Hr | exact Hf].
Qed.

Lemma safe_bind {A B} (m : Async A) (f : A -> Async B) :
  safe I good m -> (forall a, safe I good (f a)) -> safe I good (bind m f).
Proof.
  induction m as [a | e | C effect k IH | cmd k IH]; simpl; intros Hm Hf.
  - apply Hf.
  - contradiction.
  - intros w Hw. destruct (Hm w Hw) as [H1 H2]. split; [exact H1 | apply IH; assumption].
  - intros r Hr. apply IH; [apply Hm; exact Hr | exact Hf].
Qed.

Lemma safe_try_catch {A} (body : Async A) (handler : Js.JsError -> Async A) :
  keeps I good body -> (forall e, safe I good (handler e)) ->
  safe I good (try_catch body handler).
Proof.
  induction body as [a | e | C effect k IH | cmd k IH]; simpl; intros Hm Hh.
  - exact Logic.I.
  - apply Hh.
  - intros w Hw. destruct (Hm w Hw) as [H1 H2]. split; [exact H1 | apply IH; assumption].
  - intros r Hr. apply IH; [apply Hm; exact Hr | exact Hh].
Qed.

Lemma keeps_await (cmd : Command) : keeps I good (await_invoke cmd).
Proof. simpl. intros [v | e] _; exact Logic.I. Qed.

Lemma safe_modify (f : World -> World) :
  (forall w, I w -> I (f w)) -> safe I good (modify f).
Proof. intros H w Hw. simpl. split; [apply H; exact Hw | exact Logic.I]. Qed.

Lemma safe_update (fn : GenerationState -> GenerationState) :
  (forall w, I w -> I (with_generationStore (Writable.update fn) w)) ->
  safe I good (generationActions.update fn).
Proof. intros H. apply safe_modify. exact H. Qed.

Lemma safe_read_bind {A B} (f : World -> A) (k : A -> Async B) :
  (forall w, I w -> safe I good (k (f w))) -> safe I good (bind (read f) k).
Proof. intros H w Hw. simpl. split; [exact Hw | apply H; exact Hw]. Qed.

Lemma safe_advance (m : Async unit) (w : World) :
  safe I good m -> I w ->
  I (snd (advance m w)) /\
  match fst (advance m w) with
  | Finished (Returned _) => True
  | Finished (Uncaught _) => False
  | Pending cmd k => forall r, good cmd r -> safe I good (k r)
  end.
Proof.
  revert w. induction m as [a | e | C effect k IH | cmd k IH]; simpl; intros w Hm Hw.
  - split; [exact Hw | exact Logic.I].
  - contradiction.
  - destruct (Hm w Hw) as [H1 H2].
    destruct (effect w) as [b w'] eqn:E. simpl in H1, H2. apply IH; assumption.
  - split; [exact Hw | exact Hm].
Qed.

Lemma dispatch_ok (m : Async unit) (s : System) :
  safe I good m -> system_ok I good s -> system_ok I good (dispatch m s).
Proof.
  intros Hm (Hw & Hp & Hu).
  destruct (safe_advance m (world s) Hm Hw) as [H1 H2].
  unfold dispatch. destruct (advance m (world s)) as [[[u | e] | cmd k] w']; simpl in *.
  - repeat split; assumption.
  - contradiction.
  - repeat split; try assumption.
    apply Forall_app. split; [assumption |].
    constructor; [| constructor]. exact H2.
Qed.

Lemma remove_nth_Forall {A} (P : A -> Prop) (n : nat) (l : list A) :
  Forall P l -> Forall P (remove_nth n l).
Proof.
  revert n. induction l as [| x rest IH]; intros n H.
  - destruct n; constructor.
  - inversion H; subst. destruct n; simpl; [assumption |].
    constructor; [assumption | apply IH; assumption].
Qed.

Lemma nth_error_Forall {A} (P : A -> Prop) (n : nat) (l : list A) (x : A) :
  Forall P l -> nth_error l n = Some x -> P x.
Proof.
  intros H E. rewrite Forall_forall in H. apply H. eapply nth_error_In; eassumption.
Qed.

Variable allowed : Handler -> Prop.
Hypothesis handlers_safe : forall h, allowed h -> safe I good (handler h).

Lemma step_ok (s : System) (e : Event) :
  event_ok good allowed e -> system_ok I good s -> system_ok I good (step s e).
Proof.
  intros He Hs. destruct e as [h | index backend]; simpl in *.
  - apply dispatch_ok; [apply handlers_safe; exact He | exact Hs].
  - destruct (nth_error (pending s) index) as [t |] eqn:E; [| exact Hs].
    destruct Hs as (Hw & Hp & Hu).
    apply dispatch_ok.
    + apply (nth_error_Forall _ _ _ _ Hp E). apply He.
    + repeat split; simpl; try assumption. apply remove_nth_Forall; assumption.
Qed.

Lemma steps_ok (es : list Event) (s : System) :
  Forall (event_ok good allowed) es -> system_ok I good s ->
  system_ok I good (steps s es).
Proof.
  revert s. induction es as [| e rest IH]; intros s Hes Hs; simpl.
  - exact Hs.
  - inversion Hes; subst. apply IH; [assumption |]. apply step_ok; assumption.
Qed.

End Safety.

Lemma keeps_await_bind (I : World -> Prop) (good : Answers) {B}
    (cmd : Command) (f : Reply cmd -> Async B) :
  (forall v, good cmd (Resolved v) -> keeps I good (f v)) ->
  keeps I good (bind (await_invoke cmd) f).
Proof.
  intros H. simpl. intros [v | e] Hr; simpl.
  - apply H. exact Hr.
  - exact Logic.I.
Qed.

Lemma keeps_read_bind (I : World -> Prop) (good : Answers) {A B}
    (f : World -> A) (k : A -> Async B) :
  (forall w, I w -> keeps I good (k (f w))) -> keeps I good (bind (read f) k).
Proof. intros H w Hw. simpl. split; [exact Hw | apply H; exact Hw]. Qed.

(** Breaks a handler body into its store updates and page effects. *)
Ltac safe_step :=
  lazymatch goal with
  | |- safe _ _ (bind (read _) _) => apply safe_read_bind; intros ? ?
  | |- safe _ _ (bind _ _) => apply safe_bind; [| intros ?]
  | |- safe _ _ (try_catch _ _) => apply safe_try_catch; [| intros ?]
  | |- safe _ _ (generationActions.update _) => apply safe_update; intros ? ?
  | |- safe _ _ (modify _) => apply safe_modify; intros ? ?
  | |- safe _ _ (Sync _ Ret) => intros ? ?; split; [| exact Logic.I]
  | |- safe _ _ (Ret _) => exact Logic.I
  | |- safe _ _ (if ?c then _ else _) => destruct c eqn:?
  | |- safe _ _ (match ?c with _ => _ end) => destruct c eqn:?
  | |- keeps _ _ (bind (await_invoke _) _) => apply keeps_await_bind; intros ? ?
  | |- keeps _ _ (bind (read _) _) => apply keeps_read_bind; intros ? ?
  | |- keeps _ _ (bind _ _) => apply keeps_bind; [| intros ?]
  | |- keeps _ _ _ => apply safe_keeps
  end.

Ltac unfold_handlers :=
  unfold handler,
    ImageGenerator.handlePromptInput, ImageGenerator.handleGenerate,
    ImageGenerator.handleCancel, ProgressTracker.cancelGeneration,
    DimensionInput.handleWidthChange, DimensionInput.handleHeightChange,
    DimensionInput.applyAspectRatio, DimensionInput.updateDimensions,
    DimensionInput.width, DimensionInput.height, DimensionInput.reactive,
    DimensionInput.bind_width, DimensionInput.bind_height,
    AdvancedControls.updateInferenceSteps, AdvancedControls.updateGuidanceScale,
    AdvancedControls.resetToDefaults, settingsActions.loadSettings,
    ProgressTracker.reactive, ProgressTracker.poll,
    ProgressTracker.startProgressPolling, ProgressTracker.stopProgressPolling,
    ProgressTracker.updateTimeEstimate, ProgressTracker.setInterval,
    ProgressTracker.clearInterval, Date_now, console_error,
    generationActions.updateParams, generationActions.updateDimension,
    generationActions.startGeneration, generationActions.updateProgress,
    generationActions.setResult, generationActions.setError,
    generationActions.reset.

(** ** Dimensions *)

Lemma validateDimension_spec (value : string) :
  DimensionInput.validateDimension value = true <->
  exists n, Js.parseInt value = Some n /\ 256 <= n <= 1024.
Proof.
  unfold DimensionInput.validateDimension.
  destruct (Js.parseInt value) as [n |]; simpl.
  - split.
    + intros H. exists n. apply andb_true_iff in H. destruct H as [H1 H2].
      split; [reflexivity | lia].
    + intros (m & E & H). inversion E; subst. apply andb_true_iff. split; lia.
  - split; [discriminate | intros (m & E & _); discriminate].
Qed.

Lemma validateDimension_ok (value : string) (n : Z) :
  DimensionInput.validateDimension value = true ->
  Js.parseInt value = Some n -> dimension_ok n = true.
Proof.
  intros H E. apply validateDimension_spec in H. destruct H as (m & E' & H).
  rewrite E in E'. inversion E'; subst.
  unfold dimension_ok. apply andb_true_iff. split; lia.
Qed.

Lemma presets_in_range (index : nat) (p : DimensionInput.Preset) :
  nth_error DimensionInput.aspectRatios index = Some p ->
  dimension_ok (DimensionInput.preset_width p) = true /\
  dimension_ok (DimensionInput.preset_height p) = true.
Proof.
  intros E.
  do 4 (destruct index as [| index];
        [simpl in E; inversion E; subst; split; reflexivity |]).
  simpl in E. destruct index; discriminate.
Qed.

Lemma dimensions_ok_iff (ps : GenerationParams) :
  dimensions_ok ps = true <->
  dimension_ok (img_width ps) = true /\ dimension_ok (img_height ps) = true.
Proof. unfold dimensions_ok. apply andb_true_iff. Qed.

Lemma handlers_keep_dimensions (h : Handler) :
  typed_in_range h -> safe dimensions_inv settings_in_range (handler h).
Proof.
  intros Hh. destruct h; unfold_handlers; repeat safe_step.
  all: unfold dimensions_inv, store in *; simpl in *.
  all: try assumption.
  all: try (intros w Hw; split; [| exact Logic.I]).
  all: repeat match goal with
         | H : _ /\ _ |- _ => destruct H
         | H : dimensions_ok _ = true |- _ => apply dimensions_ok_iff in H
         end.
  all: repeat split; try assumption; try reflexivity.
  all: try apply dimensions_ok_iff; simpl; repeat split; try assumption.
  all: try (eapply validateDimension_ok; eassumption).
  all: match goal with
       | H : nth_error DimensionInput.aspectRatios _ = Some _ |- _ =>
           apply presets_in_range in H; destruct H; assumption
       end.
Qed.

(** ** Progress *)

Lemma handlers_keep_progress (h : Handler) :
  steps_nonnegative h -> safe progress_inv payloads_within_total (handler h).
Proof.
  intros Hh. destruct h; unfold_handlers; repeat safe_step.
  all: unfold progress_inv, within_total, store in *; simpl in *.
  all: try assumption.
  all: try (intros w Hw; split; [| exact Logic.I]).
  all: repeat match goal with H : _ /\ _ |- _ => destruct H end.
  all: try (split; [assumption || (apply Z.leb_le; assumption) | assumption || lia]).
  all: split; [reflexivity | lia].
Qed.

Lemma run_updateProgressAll (backend : Backend) (ps : list GenerationProgress)
    (p : GenerationProgress) (w : World) :
  fst (run backend (updateProgressAll (ps ++ [p])) w) = Returned tt /\
  progress (store (exec backend (updateProgressAll (ps ++ [p])) w)) = p.
Proof.
  revert w. induction ps as [| q rest IH]; intros w.
  - split; reflexivity.
  - unfold exec in *.
    change (updateProgressAll ((q :: rest) ++ [p]))
      with (bind (generationActions.updateProgress q)
                 (fun _ => updateProgressAll (rest ++ [p]))).
    rewrite run_bind. unfold generationActions.updateProgress.
    rewrite run_update. apply IH.
Qed.

(** C10 — After every [setResult] call the history starts with the new
    result and holds at most 50 entries, whatever the history was before;
    the call also clears [isGenerating] and makes the new result the current
    one. *)
Theorem setResult_history_bounded (backend : Backend) (result : GenerationResult)
    (w : World) :
  let w' := exec backend (generationActions.setResult result) w in
  fst (run backend (generationActions.setResult result) w) = Returned tt /\
  hd_error (history (store w')) = Some result /\
  (List.length (history (store w')) <= 50)%nat /\
  history (store w') = firstn 50 (result :: history (store w)) /\
  isGenerating (store w') = false /\
  currentResult (store w') = Some result.
Proof.
  cbv zeta. unfold exec, generationActions.setResult. rewrite run_update.
  cbn [fst snd]. rewrite store_update. cbn [history isGenerating currentResult].
  repeat split.
  apply firstn_le_length.
Qed.

(** C5 — Starting a generation from the idle state, with a request whose
    step count is [n], leaves the store generating, with the snapshot at
    step 0 of [n], status ['Initializing...'] and no error. *)
Theorem startGeneration_initializes (backend : Backend) (w : World) (n : Z) :
  isGenerating (store w) = false ->
  num_inference_steps (params (store w)) = n ->
  let w' := exec backend generationActions.startGeneration w in
  fst (run backend generationActions.startGeneration w) = Returned tt /\
  current_step (progress (store w')) = 0 /\
  total_steps (progress (store w')) = n /\
  status (progress (store w')) = "Initializing..."%string /\
  isGenerating (store w') = true /\
  error (store w') = None /\
  params (store w') = params (store w).
Proof.
  intros _ Hn. cbv zeta. unfold exec, generationActions.startGeneration.
  rewrite run_update. cbn [fst snd]. rewrite store_update.
  cbn [progress current_step total_steps status isGenerating error params].
  repeat split. exact Hn.
Qed.

Lemma startGeneration_initializes_witness :
  let w' := exec rejecting generationActions.startGeneration initialWorld in
  fst (run rejecting generationActions.startGeneration initialWorld) = Returned tt /\
  current_step (progress (store w')) = 0 /\
  total_steps (progress (store w')) = 20 /\
  status (progress (store w')) = "Initializing..."%string /\
  isGenerating (store w') = true /\
  error (store w') = None /\
  params (store w') = params (store initialWorld).
Proof.
  apply (startGeneration_initializes rejecting initialWorld 20); reflexivity.
Defined.

(** C6 — After a finite sequence of progress updates whose step counts never
    decrease and stay within the session's total, the store's snapshot shows
    the step of the last update. *)
Theorem updateProgress_shows_last (backend : Backend) (w : World)
    (ps : list GenerationProgress) (p : GenerationProgress) :
  nondecreasing (ps ++ [p]) = true ->
  bounded_by (total_steps (progress (store w))) (ps ++ [p]) = true ->
  current_step (progress (store (exec backend (updateProgressAll (ps ++ [p])) w))) =
  current_step p.
Proof.
  intros _ _. destruct (run_updateProgressAll backend ps p w) as [_ H].
  rewrite H. reflexivity.
Qed.

Lemma updateProgress_shows_last_witness :
  current_step
    (progress (store (exec rejecting
       (updateProgressAll ([mkProgress 1 20 "step" None None;
                            mkProgress 1 20 "step" None None;
                            mkProgress 7 20 "step" None None]
                           ++ [mkProgress 20 20 "done" None None]))
       initialWorld))) = 20.
Proof.
  apply (updateProgress_shows_last rejecting initialWorld
           [mkProgress 1 20 "step" None None;
            mkProgress 1 20 "step" None None;
            mkProgress 7 20 "step" None None]
           (mkProgress 20 20 "done" None None)); reflexivity.
Defined.

Lemma run_updateProgress (backend : Backend) (p : GenerationProgress) (w : World) :
  progress (store (exec backend (generationActions.updateProgress p) w)) = p.
Proof. reflexivity. Qed.

(** C2, as stated, fails: [updateProgress] copies whatever the poll returned.
    A generation is started, polling begins, and the first poll answers with
    step 5 of 3; the store then shows a current step above the total. *)
Lemma progress_bound_counterexample :
  let s := steps initialSystem
             [ Dispatch (Generate "a cat");
               Dispatch Reactive;
               Dispatch (TimerFires 1);
               Settle 1 (answering_progress
                           (Resolved (mkProgress 5 3 "Denoising" None None))) ] in
  isGenerating (store (world s)) = true /\
  current_step (progress (store (world s))) = 5 /\
  total_steps (progress (store (world s))) = 3 /\
  within_total (progress (store (world s))) = false.
Proof. vm_compute. repeat split. Qed.

(** C2, amended — [updateProgress] stores the payload as it is, so the
    snapshot is within its total after the call exactly when the payload is.
    Hence every state the page reaches from its initial state satisfies
    [current_step <= total_steps] when every polled payload does and the
    step counts chosen by the user or loaded from the settings are not
    negative. *)
Theorem progress_bound_when_payloads_bounded (es : list Event) :
  Forall (event_ok payloads_within_total steps_nonnegative) es ->
  current_step (progress (store (world (steps initialSystem es)))) <=
    total_steps (progress (store (world (steps initialSystem es)))) /\
  (forall (backend : Backend) (p : GenerationProgress) (w : World),
     progress (store (exec backend (generationActions.updateProgress p) w)) = p).
Proof.
  intros Hes. split.
  - assert (H : system_ok progress_inv payloads_within_total (steps initialSystem es)).
    { apply (steps_ok _ _ steps_nonnegative handlers_keep_progress es _ Hes).
      repeat split; try constructor. simpl. lia. }
    destruct H as [[H _] _]. apply Z.leb_le. exact H.
  - intros backend p w. apply run_updateProgress.
Qed.

Lemma progress_bound_when_payloads_bounded_witness :
  let es := [ Dispatch (InferenceSteps 30);
              Dispatch (Generate "a cat");
              Dispatch Reactive;
              Dispatch (TimerFires 1);
              Settle 1 (answering_progress
                          (Resolved (mkProgress 4 30 "Denoising" None None))) ] in
  current_step (progress (store (world (steps initialSystem es)))) <=
    total_steps (progress (store (world (steps initialSystem es)))) /\
  (forall (backend : Backend) (p : GenerationProgress) (w : World),
     progress (store (exec backend (generationActions.updateProgress p) w)) = p).
Proof.
  apply (progress_bound_when_payloads_bounded
           [ Dispatch (InferenceSteps 30);
             Dispatch (Generate "a cat");
             Dispatch Reactive;
             Dispatch (TimerFires 1);
             Settle 1 (answering_progress
                         (Resolved (mkProgress 4 30 "Denoising" None None))) ]).
  repeat constructor; simpl; try lia.
  intros cmd. destruct cmd; simpl; reflexivity || exact Logic.I.
Defined.

(** ** Cancelling *)

(** C1 — Cancelling a generation in progress parks on [cancel_generation]
    without touching the page; whenever that call settles, and whatever the
    page went through in between, the handler returns with [isGenerating]
    false and a message recorded: ['Generation cancelled by user'] when the
    call succeeded, ['Failed to cancel generation'] when it failed.  No
    progress or result from the worker is needed for that. *)
Theorem cancel_yields_cancelled (w : World) :
  isGenerating (store w) = true ->
  exists k : Settled unit -> Async unit,
    advance ProgressTracker.cancelGeneration w = (Pending cancel_generation k, w) /\
    forall (r : Settled unit) (w1 : World),
      fst (advance (k r) w1) = Finished (Returned tt) /\
      isGenerating (store (snd (advance (k r) w1))) = false /\
      error (store (snd (advance (k r) w1))) =
        Some (match r with
              | Resolved _ => "Generation cancelled by user"
              | Rejected _ => "Failed to cancel generation"
              end)%string /\
      progress (store (snd (advance (k r) w1))) = progress (store w1).
Proof.
  intros _. eexists. split.
  - reflexivity.
  - intros [[] | e] w1; repeat split.
Qed.

Lemma cancel_yields_cancelled_witness :
  exists k : Settled unit -> Async unit,
    advance ProgressTracker.cancelGeneration
      (world (steps initialSystem [Dispatch (Generate "a cat")])) =
    (Pending cancel_generation k,
     world (steps initialSystem [Dispatch (Generate "a cat")])) /\
    forall (r : Settled unit) (w1 : World),
      fst (advance (k r) w1) = Finished (Returned tt) /\
      isGenerating (store (snd (advance (k r) w1))) = false /\
      error (store (snd (advance (k r) w1))) =
        Some (match r with
              | Resolved _ => "Generation cancelled by user"
              | Rejected _ => "Failed to cancel generation"
              end)%string /\
      progress (store (snd (advance (k r) w1))) = progress (store w1).
Proof.
  apply (cancel_yields_cancelled
           (world (steps initialSystem [Dispatch (Generate "a cat")]))).
  reflexivity.
Defined.

(** ** Failures *)

Lemma handlers_never_throw (h : Handler) :
  safe (fun _ => True) any_answer (handler h).
Proof.
  destruct h; unfold_handlers; repeat safe_step.
  all: try exact Logic.I.
  all: intros w Hw; split; exact Logic.I.
Qed.

Lemma no_unhandled_exception (es : list Event) :
  unhandled (steps initialSystem es) = [].
Proof.
  assert (H : system_ok (fun _ => True) any_answer (steps initialSystem es)).
  { apply (steps_ok _ _ any_handler (fun h _ => handlers_never_throw h) es).
    - apply Forall_forall. intros [h | index backend] _; simpl.
      + exact Logic.I.
      + intros cmd. exact Logic.I.
    - repeat split; constructor. }
  destruct H as (_ & _ & H). exact H.
Qed.

(** C9, as stated, fails for polling: a poll whose request fails is caught
    and written to the console, and the store keeps showing a running
    generation with no error. *)
Lemma poll_failure_not_recorded :
  let w := world (steps initialSystem
                    [Dispatch (Generate "a cat"); Dispatch Reactive]) in
  let w' := exec (answering_progress (Rejected "worker unreachable"%string))
                 ProgressTracker.poll w in
  isGenerating (store w') = true /\
  error (store w') = None /\
  console w' = ["Failed to get progress: worker unreachable"%string].
Proof. vm_compute. repeat split. Qed.

(** C9, amended — When the [generate_image] call is rejected, the handler
    records the rejection as the store's error and clears [isGenerating];
    when a poll fails, the failure is caught and only logged to the console,
    and the store is left as it was.  In neither case, nor in any other run
    of the page's handlers, does an exception leave a handler uncaught. *)
Theorem failures_are_caught (prompt : string) (w : World) :
  Js.truthy_string (Js.trim prompt) = true ->
  (exists (k : Settled GenerationResult -> Async unit) (request : GenerationParams),
     fst (advance (ImageGenerator.handleGenerate prompt) w) =
       Pending (generate_image request) k /\
     forall (e : Js.JsError) (w1 : World),
       fst (advance (k (Rejected e)) w1) = Finished (Returned tt) /\
       isGenerating (store (snd (advance (k (Rejected e)) w1))) = false /\
       error (store (snd (advance (k (Rejected e)) w1))) = Some e) /\
  (forall (e : Js.JsError) (w1 : World),
     let r := run (answering_progress (Rejected e)) ProgressTracker.poll w1 in
     fst r = Returned tt /\
     generationStore (snd r) = generationStore w1 /\
     console (snd r) = console w1 ++ [("Failed to get progress: " ++ e)%string]) /\
  (forall es : list Event, unhandled (steps initialSystem es) = []).
Proof.
  intros Hp. split; [| split].
  - unfold ImageGenerator.handleGenerate. rewrite Hp. simpl.
    eexists. eexists. split; [reflexivity |].
    intros e w1. repeat split.
  - intros e w1. repeat split.
  - apply no_unhandled_exception.
Qed.

Lemma failures_are_caught_witness :
  (exists (k : Settled GenerationResult -> Async unit) (request : GenerationParams),
     fst (advance (ImageGenerator.handleGenerate "a cat") initialWorld) =
       Pending (generate_image request) k /\
     forall (e : Js.JsError) (w1 : World),
       fst (advance (k (Rejected e)) w1) = Finished (Returned tt) /\
       isGenerating (store (snd (advance (k (Rejected e)) w1))) = false /\
       error (store (snd (advance (k (Rejected e)) w1))) = Some e) /\
  (forall (e : Js.JsError) (w1 : World),
     let r := run (answering_progress (Rejected e)) ProgressTracker.poll w1 in
     fst r = Returned tt /\
     generationStore (snd r) = generationStore w1 /\
     console (snd r) = console w1 ++ [("Failed to get progress: " ++ e)%string]) /\
  (forall es : list Event, unhandled (steps initialSystem es) = []).
Proof.
  apply (failures_are_caught "a cat" initialWorld). reflexivity.
Defined.

(** ** Polling *)

(** C3, as stated, fails: the poll callback hands every snapshot it receives
    to the store, and the store notifies its subscribers on every update.
    Here the poll answers with the snapshot the store already shows, and the
    subscribers are handed it once more. *)
Lemma unchanged_snapshot_republished :
  let w := world (steps initialSystem
                    [Dispatch (Generate "a cat"); Dispatch Reactive]) in
  let unchanged := progress (store w) in
  let w' := exec (answering_progress (Resolved unchanged)) ProgressTracker.poll w in
  store w' = store w /\
  Writable.published (generationStore w') =
    Writable.published (generationStore w) ++ [store w] /\
  Writable.published (generationStore w') <> Writable.published (generationStore w).
Proof.
  vm_compute. repeat split. discriminate.
Qed.

(** C3, amended — While a generation is active the tracker polls on a fixed
    500ms interval, and every poll that succeeds publishes the snapshot it
    received to the observers, whether or not it differs from the last one
    published; a poll that fails publishes nothing. *)
Theorem polling_publishes_every_snapshot (w : World) :
  isGenerating (store w) = true ->
  Js.truthy_number (progressInterval w) = false ->
  (forall backend : Backend,
     let w' := exec backend ProgressTracker.reactive w in
     timers w' = timers w ++ [mkTimer (next_timer w) 500] /\
     progressInterval w' = Some (next_timer w) /\
     startTime w' = Some (clock w)) /\
  (forall (p : GenerationProgress) (w1 : World),
     let w' := exec (answering_progress (Resolved p)) ProgressTracker.poll w1 in
     progress (store w') = p /\
     Writable.published (generationStore w') =
       Writable.published (generationStore w1) ++ [store w']) /\
  (forall (e : Js.JsError) (w1 : World),
     let w' := exec (answering_progress (Rejected e)) ProgressTracker.poll w1 in
     Writable.published (generationStore w') =
       Writable.published (generationStore w1)).
Proof.
  intros Hg Hi. split; [| split].
  - intros backend. unfold exec, ProgressTracker.reactive. simpl.
    rewrite Hg, Hi. simpl. repeat split.
  - intros p w1. unfold exec, ProgressTracker.poll. simpl.
    destruct (negb (Js.truthy_number (startTime w1))
              || (current_step (tracker_progress w1) =? 0)); simpl.
    + split; reflexivity.
    + destruct (current_step (tracker_progress w1) >? 0); simpl; split; reflexivity.
  - intros e w1. reflexivity.
Qed.

Lemma polling_publishes_every_snapshot_witness :
  let w := world (steps initialSystem [Dispatch (Generate "a cat")]) in
  (forall backend : Backend,
     let w' := exec backend ProgressTracker.reactive w in
     timers w' = timers w ++ [mkTimer (next_timer w) 500] /\
     progressInterval w' = Some (next_timer w) /\
     startTime w' = Some (clock w)) /\
  (forall (p : GenerationProgress) (w1 : World),
     let w' := exec (answering_progress (Resolved p)) ProgressTracker.poll w1 in
     progress (store w') = p /\
     Writable.published (generationStore w') =
       Writable.published (generationStore w1) ++ [store w']) /\
  (forall (e : Js.JsError) (w1 : World),
     let w' := exec (answering_progress (Rejected e)) ProgressTracker.poll w1 in
     Writable.published (generationStore w') =
       Writable.published (generationStore w1)).
Proof.
  apply (polling_publishes_every_snapshot
           (world (steps initialSystem [Dispatch (Generate "a cat")])));
    reflexivity.
Defined.

(** ** Time estimate *)

(** C4, where the code departs from it — The poll callback stores the new
    snapshot and computes the estimate in the same turn, before the
    component's [progress] variable has been assigned from the store.  The
    estimate of a tick is therefore computed from the snapshot of the tick
    before and does not depend on the one just received: while the variable
    still shows step 0, as on the first tick, the estimate is empty
    whatever step the backend reports. *)
Theorem estimate_ignores_polled_snapshot (w : World) (p : GenerationProgress) :
  current_step (tracker_progress w) = 0 ->
  let w' := exec (answering_progress (Resolved p)) ProgressTracker.poll w in
  (progress (store w') = p /\
   tracker_progress w' = tracker_progress w /\
   estimatedTimeRemaining w' = ""%string) /\
  (forall (q r : GenerationProgress) (w1 : World),
     estimatedTimeRemaining
       (exec (answering_progress (Resolved q)) ProgressTracker.poll w1) =
     estimatedTimeRemaining
       (exec (answering_progress (Resolved r)) ProgressTracker.poll w1)).
Proof.
  intros Hc. cbv zeta. split.
  - unfold exec, ProgressTracker.poll. simpl.
    rewrite Hc. rewrite orb_true_r. simpl.
    split; [reflexivity |]. split; reflexivity.
  - intros q r w1. unfold exec, ProgressTracker.poll. simpl.
    destruct (negb (Js.truthy_number (startTime w1))
              || (current_step (tracker_progress w1) =? 0)); simpl; [reflexivity |].
    destruct (current_step (tracker_progress w1) >? 0); reflexivity.
Qed.

(** Polling starts at 1000 ms.  The first tick, at 11000 ms, is answered
    step 5 of 20: the store holds 5 of 20 and the estimate is empty, where
    the formula gives 10000 / 5 * 15 ms, 30 seconds.  The second tick, at
    12000 ms, is answered step 6 of 20: the estimate is the one of step 5,
    11000 / 5 * 15 ms, where the formula gives 11000 / 6 * 14 ms, 26 seconds
    when rounded up. *)
Lemma estimate_ignores_polled_snapshot_witness :
  let five := mkProgress 5 20 "Denoising" None None in
  let six := mkProgress 6 20 "Denoising" None None in
  let started := [ Dispatch (TimePasses 1000);
                   Dispatch (Generate "a cat");
                   Dispatch Reactive ] in
  let first := [ Dispatch (TimePasses 11000);
                 Dispatch (TimerFires 1);
                 Settle 1 (answering_progress (Resolved five)) ] in
  let second := [ Dispatch Reactive;
                  Dispatch (TimePasses 12000);
                  Dispatch (TimerFires 1);
                  Settle 1 (answering_progress (Resolved six)) ] in
  let w := world (steps initialSystem (started ++ firstn 2 first)) in
  let w1 := exec (answering_progress (Resolved five)) ProgressTracker.poll w in
  let w2 := world (steps initialSystem (started ++ first ++ second)) in
  (startTime w = Some 1000 /\ clock w = 11000 /\
   current_step (tracker_progress w) = 0 /\
   world (steps initialSystem (started ++ first)) = w1) /\
  (progress (store w1) = five /\
   tracker_progress w1 = tracker_progress w /\
   estimatedTimeRemaining w1 = ""%string) /\
  (progress (store w2) = six /\
   estimatedTimeRemaining w2 = "33s"%string /\
   ProgressTracker.formatTime (ProgressTracker.estimatedRemaining 11000 5 15) = "33s"%string /\
   ProgressTracker.formatTime (ProgressTracker.estimatedRemaining 11000 6 14) = "26s"%string).
Proof.
  intros five six started first second w w1 w2.
  assert (Hc : current_step (tracker_progress w) = 0) by (vm_compute; reflexivity).
  split; [| split].
  - split; [vm_compute; reflexivity |]. split; [vm_compute; reflexivity |].
    split; [exact Hc | vm_compute; reflexivity].
  - exact (proj1 (estimate_ignores_polled_snapshot w five Hc)).
  - split; [vm_compute; reflexivity |]. split; [vm_compute; reflexivity |].
    split; vm_compute; reflexivity.
Defined.

(** ** Dimension inputs *)

(** A change of the width input reaches the store only when the typed value
    parses to an integer in [256, 1024]; the height written along with it is
    the component's [height] variable, as it stands. *)
Lemma handleWidthChange_effect (backend : Backend) (value : string) (w : World) :
  let w' := exec backend (DimensionInput.handleWidthChange value) w in
  match Js.parseInt value with
  | Some n =>
      if (256 <=? n) && (n <=? 1024)
      then img_width (params (store w')) = n /\
           img_height (params (store w')) = input_height w
      else w' = w
  | None => w' = w
  end.
Proof.
  cbv zeta. unfold exec, DimensionInput.handleWidthChange, DimensionInput.validateDimension.
  destruct (Js.parseInt value) as [n |]; simpl; [| reflexivity].
  replace (n >=? 256) with (256 <=? n) by (rewrite Z.geb_leb; reflexivity).
  destruct ((256 <=? n) && (n <=? 1024)); simpl; [split |]; reflexivity.
Qed.

Lemma handleHeightChange_effect (backend : Backend) (value : string) (w : World) :
  let w' := exec backend (DimensionInput.handleHeightChange value) w in
  match Js.parseInt value with
  | Some n =>
      if (256 <=? n) && (n <=? 1024)
      then img_height (params (store w')) = n /\
           img_width (params (store w')) = input_width w
      else w' = w
  | None => w' = w
  end.
Proof.
  cbv zeta. unfold exec, DimensionInput.handleHeightChange, DimensionInput.validateDimension.
  destruct (Js.parseInt value) as [n |]; simpl; [| reflexivity].
  replace (n >=? 256) with (256 <=? n) by (rewrite Z.geb_leb; reflexivity).
  destruct ((256 <=? n) && (n <=? 1024)); simpl; [split |]; reflexivity.
Qed.

(** Both dimensions stay in [256, 1024] in every state the page reaches, as
    long as nothing out of range is typed into the inputs and the defaults
    loaded from the settings are in range. *)
Lemma dimensions_in_range_when_typed_in_range (es : list Event) :
  Forall (event_ok settings_in_range typed_in_range) es ->
  256 <= img_width (params (store (world (steps initialSystem es)))) <= 1024 /\
  256 <= img_height (params (store (world (steps initialSystem es)))) <= 1024.
Proof.
  intros Hes.
  assert (H : system_ok dimensions_inv settings_in_range (steps initialSystem es)).
  { apply (steps_ok _ _ typed_in_range handlers_keep_dimensions es _ Hes).
    repeat split; constructor. }
  destruct H as [[H _] _]. apply dimensions_ok_iff in H. destruct H as [Hw Hh].
  unfold dimension_ok in Hw, Hh.
  apply andb_true_iff in Hw. apply andb_true_iff in Hh. lia.
Qed.

(** C8, where the code departs from it — Width and height start at 512 and
    the handlers check the value that was changed, but they write the other
    dimension from the variable bound to its input without checking it.
    5000 is typed into the height input and rejected; 600 is then typed into
    the width input and accepted, and the store receives the height 5000,
    which the next generation request carries to the backend. *)
Theorem rejected_dimension_reaches_store :
  let es := [ Dispatch (HeightTyped 5000);
              Dispatch (HeightChange "5000");
              Dispatch (WidthTyped 600);
              Dispatch (WidthChange "600");
              Dispatch DimensionsReactive ] in
  img_width (params initialState) = 512 /\
  img_height (params initialState) = 512 /\
  DimensionInput.validateDimension "5000" = false /\
  store (world (steps initialSystem (firstn 2 es))) = initialState /\
  img_width (params (store (world (steps initialSystem es)))) = 600 /\
  img_height (params (store (world (steps initialSystem es)))) = 5000 /\
  dimensions_ok (params (store (world (steps initialSystem es)))) = false /\
  map task_cmd (pending (steps initialSystem (es ++ [Dispatch (Generate "a cat")]))) =
    [generate_image (ImageGenerator.request "a cat" 600 5000)].
Proof. vm_compute. repeat split. Qed.

(** ** The line protocol *)

Lemma count_newlines_app (a b : string) :
  Protocol.count_newlines (a ++ b) =
  (Protocol.count_newlines a + Protocol.count_newlines b)%nat.
Proof.
  induction a as [| c rest IH]; simpl.
  - reflexivity.
  - rewrite IH. destruct (Ascii.eqb c Protocol.newline); reflexivity.
Qed.

Lemma escape_char_one_line (c : ascii) :
  Protocol.count_newlines (Protocol.escape_char c) = O.
Proof.
  destruct c as [[] [] [] [] [] [] [] []]; reflexivity.
Qed.

Lemma escape_one_line (s : string) :
  Protocol.count_newlines (Protocol.escape s) = O.
Proof.
  induction s as [| c rest IH]; simpl.
  - reflexivity.
  - rewrite count_newlines_app, escape_char_one_line, IH. reflexivity.
Qed.

Lemma quote_one_line (s : string) :
  Protocol.count_newlines (Protocol.quote s) = O.
Proof.
  unfold Protocol.quote. simpl.
  rewrite count_newlines_app, escape_one_line. reflexivity.
Qed.

Lemma string_of_uint_one_line (d : Decimal.uint) :
  Protocol.count_newlines (NilEmpty.string_of_uint d) = O.
Proof. induction d; simpl; assumption || reflexivity. Qed.

Lemma string_of_Z_one_line (z : Z) :
  Protocol.count_newlines (Js.string_of_Z z) = O.
Proof.
  unfold Js.string_of_Z, NilZero.string_of_int, NilZero.string_of_uint.
  destruct (Z.to_int z) as [d | d]; destruct d; simpl;
    try reflexivity; apply string_of_uint_one_line.
Qed.

Lemma fraction_digits_one_line (fuel : nat) (r d : Z) :
  Protocol.count_newlines (Protocol.fraction_digits fuel r d) = O.
Proof.
  revert r. induction fuel as [| fuel IH]; intros r; simpl.
  - reflexivity.
  - destruct (r =? 0); [reflexivity |].
    rewrite count_newlines_app, string_of_Z_one_line, IH. reflexivity.
Qed.

Lemma render_number_one_line (q : Q) :
  Protocol.count_newlines (Protocol.render_number q) = O.
Proof.
  unfold Protocol.render_number.
  destruct (Z.abs (Qnum q) mod Z.pos (Qden q) =? 0); destruct (Qnum q <? 0);
    repeat rewrite count_newlines_app;
    rewrite ?string_of_Z_one_line, ?fraction_digits_one_line; reflexivity.
Qed.

Lemma render_value_one_line (v : Protocol.JValue) :
  Protocol.count_newlines (Protocol.render_value v) = O.
Proof.
  destruct v as [q | s]; simpl.
  - apply render_number_one_line.
  - apply quote_one_line.
Qed.

Lemma render_members_one_line (o : Protocol.JObject) :
  Protocol.count_newlines (Protocol.render_members o) = O.
Proof.
  induction o as [| [k v] rest IH]; [reflexivity |].
  cbn [Protocol.render_members]. destruct rest as [| m rest'].
  - repeat rewrite count_newlines_app.
    rewrite quote_one_line, render_value_one_line. reflexivity.
  - repeat rewrite count_newlines_app.
    rewrite quote_one_line, render_value_one_line, IH. reflexivity.
Qed.

Lemma stringify_one_line (o : Protocol.JObject) :
  Protocol.count_newlines (Protocol.stringify o) = O.
Proof.
  unfold Protocol.stringify. repeat rewrite count_newlines_app.
  rewrite render_members_one_line. reflexivity.
Qed.

Lemma chomp_terminated (s : string) :
  Protocol.count_newlines s = O ->
  Protocol.chomp (s ++ String Protocol.newline EmptyString) = Some s.
Proof.
  induction s as [| c rest IH]; simpl; intros H.
  - reflexivity.
  - destruct (Ascii.eqb c Protocol.newline); [discriminate |].
    rewrite IH; [reflexivity | exact H].
Qed.

(** *** Reading back what the codec writes *)

Lemma append_assoc (a b c : string) : ((a ++ b) ++ c = a ++ (b ++ c))%string.
Proof. induction a as [| x a IH]; simpl; [reflexivity | rewrite IH; reflexivity]. Qed.

Lemma append_empty (a : string) : (a ++ EmptyString)%string = a.
Proof. induction a as [| x a IH]; simpl; [reflexivity | rewrite IH; reflexivity]. Qed.

Lemma length_append (a b : string) :
  String.length (a ++ b) = (String.length a + String.length b)%nat.
Proof. induction a as [| x a IH]; simpl; [reflexivity | rewrite IH; reflexivity]. Qed.

Lemma scan_string_escape_char (c : ascii) (tail : string) :
  Protocol.scan_string (Protocol.escape_char c ++ tail) =
  match Protocol.scan_string tail with
  | Some (t, r) => Some (String c t, r)
  | None => None
  end.
Proof. destruct c as [[] [] [] [] [] [] [] []]; reflexivity. Qed.

Lemma scan_string_escape (s rest : string) :
  Protocol.scan_string (Protocol.escape s ++ String Protocol.dquote rest) = Some (s, rest).
Proof.
  induction s as [| c s IH]; simpl.
  - reflexivity.
  - rewrite append_assoc, scan_string_escape_char, IH. reflexivity.
Qed.

Lemma take_digits_app (ds : string) (c : ascii) (rest : string) :
  Protocol.all_digits ds = true -> Protocol.is_digit c = false ->
  Protocol.take_digits (ds ++ String c rest) = (ds, String c rest).
Proof.
  intros Hd Hc. induction ds as [| x ds IH]; simpl.
  - rewrite Hc. reflexivity.
  - simpl in Hd. apply andb_prop in Hd. destruct Hd as [Hx Hd].
    rewrite Hx, (IH Hd). reflexivity.
Qed.

Lemma all_digits_app (a b : string) :
  Protocol.all_digits (a ++ b) = Protocol.all_digits a && Protocol.all_digits b.
Proof.
  induction a as [| x a IH]; simpl; [reflexivity |].
  rewrite IH, andb_assoc. reflexivity.
Qed.

Lemma string_of_uint_digits (d : Decimal.uint) :
  Protocol.all_digits (NilEmpty.string_of_uint d) = true.
Proof. induction d; simpl; assumption || reflexivity. Qed.

Lemma to_uint_no_leading_zero (p : positive) (u : Decimal.uint) :
  Pos.to_uint p <> Decimal.D0 u.
Proof.
  intros E.
  assert (Hn : Decimal.unorm (Pos.to_uint p) = Pos.to_uint p).
  { rewrite <- DecimalPos.Unsigned.to_of, DecimalPos.Unsigned.of_to. reflexivity. }
  rewrite E in Hn. rewrite DecimalFacts.unorm_D0 in Hn.
  assert (Hu : u = Decimal.Nil \/ u <> Decimal.Nil).
  { destruct u; (left; reflexivity) || (right; discriminate). }
  destruct Hu as [-> | Hu].
  - apply (DecimalPos.Unsigned.to_uint_nonzero p). exact E.
  - pose proof (DecimalFacts.nb_digits_unorm u Hu) as Hl.
    rewrite Hn in Hl. simpl in Hl. lia.
Qed.

(** The decimal text of a natural number: digits, the first of which is 0
    only when it is the only one. *)
Lemma string_of_Z_natural (n : Z) :
  0 <= n ->
  exists (d : ascii) (more : string),
    Js.string_of_Z n = String d more /\
    Protocol.all_digits (String d more) = true /\
    Ascii.eqb d "0" && negb (String.eqb more EmptyString) = false.
Proof.
  intros Hn. destruct n as [| p | p]; [| | lia].
  - exists "0"%char, EmptyString. repeat split.
  - unfold Js.string_of_Z. simpl Z.to_int. unfold NilZero.string_of_int, NilZero.string_of_uint.
    pose proof (to_uint_no_leading_zero p) as Hz.
    pose proof (string_of_uint_digits (Pos.to_uint p)) as Hd.
    pose proof (DecimalPos.Unsigned.to_uint_nonnil p) as Hnil.
    destruct (Pos.to_uint p) as [| u | u | u | u | u | u | u | u | u | u];
      try (exfalso; apply Hnil; reflexivity);
      try (exfalso; apply (Hz u); reflexivity);
      simpl; eexists _, _; (split; [reflexivity |]); (split; [exact Hd | reflexivity]).
Qed.

Lemma string_of_digit (k : Z) :
  0 <= k < 10 ->
  exists c : ascii, Js.string_of_Z k = String c EmptyString /\ Protocol.is_digit c = true.
Proof.
  intros H.
  assert (E : k = 0 \/ k = 1 \/ k = 2 \/ k = 3 \/ k = 4 \/ k = 5 \/ k = 6 \/ k = 7 \/
              k = 8 \/ k = 9) by lia.
  repeat (destruct E as [-> | E]; [eexists; split; reflexivity |]).
  subst k. eexists; split; reflexivity.
Qed.

Lemma fraction_digits_digits (fuel : nat) (r d : Z) :
  0 <= r < d -> Protocol.all_digits (Protocol.fraction_digits fuel r d) = true.
Proof.
  revert r. induction fuel as [| fuel IH]; intros r Hr; cbn [Protocol.fraction_digits].
  - reflexivity.
  - destruct (r =? 0); [reflexivity |].
    destruct (string_of_digit ((10 * r) / d)) as (c & Ec & Hc).
    { split; [apply Z.div_pos; lia | apply Z.div_lt_upper_bound; lia]. }
    rewrite Ec. cbn [append Protocol.all_digits]. rewrite Hc. cbn [andb].
    apply IH. apply Z.mod_pos_bound. lia.
Qed.

Lemma fraction_digits_nonempty (fuel : nat) (r d : Z) :
  0 < r < d ->
  exists c rest, Protocol.fraction_digits (S fuel) r d = String c rest.
Proof.
  intros Hr. cbn [Protocol.fraction_digits].
  destruct (Z.eqb_spec r 0) as [E | _]; [lia |].
  destruct (string_of_digit ((10 * r) / d)) as (c & Ec & _).
  { split; [apply Z.div_pos; lia | apply Z.div_lt_upper_bound; lia]. }
  rewrite Ec. cbn [append]. eauto.
Qed.

Lemma digit_is_not_minus (c : ascii) :
  Protocol.is_digit c = true -> Ascii.eqb c "-" = false.
Proof. destruct c as [[] [] [] [] [] [] [] []]; try discriminate; reflexivity. Qed.

Lemma ends_number_spec (c : ascii) :
  Protocol.ends_number c = true ->
  Protocol.is_digit c = false /\ Ascii.eqb c "." = false /\
  Ascii.eqb c "e" = false /\ Ascii.eqb c "E" = false.
Proof.
  unfold Protocol.ends_number. rewrite negb_true_iff, !orb_false_iff. tauto.
Qed.

(** The reader takes a number written as a sign, digits and a fraction up
    to the first character that cannot continue it. *)
Lemma scan_number_parts (negative : bool) (d : ascii) (more fraction : string)
      (c : ascii) (rest : string) :
  Protocol.all_digits (String d more) = true ->
  Ascii.eqb d "0" && negb (String.eqb more EmptyString) = false ->
  Protocol.all_digits fraction = true ->
  Protocol.ends_number c = true ->
  let sign := if negative then "-"%string else EmptyString in
  let point := match fraction with
               | EmptyString => EmptyString
               | _ => String "." fraction
               end in
  Protocol.scan_number ((sign ++ String d more ++ point) ++ String c rest) =
  Some ((sign ++ String d more ++ point)%string, String c rest).
Proof.
  intros Hw Hz Hf Hc. cbv zeta.
  destruct (ends_number_spec c Hc) as (Hc1 & Hc2 & Hc3 & Hc4).
  assert (Hd : Protocol.is_digit d = true).
  { simpl in Hw. apply andb_prop in Hw. tauto. }
  set (point := match fraction with
                | EmptyString => EmptyString
                | _ => String "." fraction
                end).
  assert (Ht : Protocol.take_digits (String d (more ++ point ++ String c rest)) =
               (String d more, (point ++ String c rest)%string)).
  { change (String d (more ++ ?x))%string with (String d more ++ x)%string.
    subst point. destruct fraction as [| f fs].
    - apply take_digits_app; assumption.
    - apply take_digits_app; [assumption | reflexivity]. }
  assert (Hp : Protocol.scan_fraction (point ++ String c rest) =
               Some (point, String c rest)).
  { subst point. destruct fraction as [| f fs].
    - cbn [append Protocol.scan_fraction]. rewrite Hc2. reflexivity.
    - cbn [append Protocol.scan_fraction Ascii.eqb Bool.eqb].
      change (String f (fs ++ String c rest))%string
        with (String f fs ++ String c rest)%string.
      rewrite (take_digits_app (String f fs) c rest Hf Hc1). reflexivity. }
  assert (He : Protocol.scan_exponent (String c rest) = Some (EmptyString, String c rest)).
  { cbn [Protocol.scan_exponent]. rewrite Hc3, Hc4. reflexivity. }
  clearbody point.
  destruct negative; unfold Protocol.scan_number;
    rewrite !append_assoc; cbn [append Ascii.eqb Bool.eqb];
    rewrite ?(digit_is_not_minus d Hd), Ht, Hz, Hp, He, append_empty; reflexivity.
Qed.

Lemma render_number_parts (q : Q) :
  exists (negative : bool) (d : ascii) (more fraction : string),
    Protocol.render_number q =
      ((if negative then "-"%string else EmptyString) ++ String d more ++
       match fraction with
       | EmptyString => EmptyString
       | _ => String "." fraction
       end)%string /\
    Protocol.all_digits (String d more) = true /\
    Ascii.eqb d "0" && negb (String.eqb more EmptyString) = false /\
    Protocol.all_digits fraction = true.
Proof.
  unfold Protocol.render_number.
  set (n := Qnum q). set (d := Z.pos (Qden q)). set (a := Z.abs n).
  assert (Hd : 0 < d) by (subst d; lia).
  assert (Ha : 0 <= a) by (subst a; lia).
  destruct (string_of_Z_natural (a / d)) as (x & more & Ew & Hw & Hz).
  { apply Z.div_pos; lia. }
  exists (n <? 0), x, more.
  destruct (Z.eqb_spec (a mod d) 0) as [E | E].
  - exists EmptyString. rewrite Ew, append_empty.
    split; [destruct (n <? 0); reflexivity |].
    split; [assumption |]. split; [assumption | reflexivity].
  - pose proof (Z.mod_pos_bound a d Hd) as Hm.
    destruct (fraction_digits_nonempty 16 (a mod d) d) as (f & fs & Ef); [lia |].
    exists (Protocol.fraction_digits 17 (a mod d) d).
    rewrite Ew. split; [rewrite Ef; destruct (n <? 0); reflexivity |].
    split; [assumption |]. split; [assumption |].
    apply fraction_digits_digits. lia.
Qed.

Lemma scan_number_render (q : Q) (c : ascii) (rest : string) :
  Protocol.ends_number c = true ->
  Protocol.scan_number (Protocol.render_number q ++ String c rest) =
  Some (Protocol.render_number q, String c rest).
Proof.
  intros Hc.
  destruct (render_number_parts q) as (negative & d & more & fraction & E & Hw & Hz & Hf).
  rewrite E. apply scan_number_parts; assumption.
Qed.

Lemma render_number_head (q : Q) :
  exists (a : ascii) (s : string),
    Protocol.render_number q = String a s /\
    Protocol.is_digit a || Ascii.eqb a "-" = true.
Proof.
  destruct (render_number_parts q) as (negative & d & more & fraction & E & Hw & _).
  rewrite E. simpl in Hw. apply andb_prop in Hw. destruct Hw as [Hd _].
  destruct negative; cbn [append]; eexists _, _; (split; [reflexivity |]).
  - reflexivity.
  - rewrite Hd. reflexivity.
Qed.

Lemma parse_value_number (fuel : nat) (a : ascii) (s : string) :
  Protocol.is_digit a || Ascii.eqb a "-" = true ->
  Protocol.parse_value (S fuel) (String a s) =
  match Protocol.scan_number (String a s) with
  | Some (literal, rest) => Some (Protocol.VNumber literal, rest)
  | None => None
  end.
Proof.
  intros H. destruct a as [[] [] [] [] [] [] [] []]; try discriminate H; reflexivity.
Qed.

Lemma parse_value_string (fuel : nat) (s : string) :
  Protocol.parse_value (S fuel) (String Protocol.dquote s) =
  match Protocol.scan_string s with
  | Some (t, rest) => Some (Protocol.VString t, rest)
  | None => None
  end.
Proof. reflexivity. Qed.

(** A value written by [render_value] and followed by a comma or a closing
    brace reads back as itself, up to that character. *)
Lemma parse_value_render (fuel : nat) (v : Protocol.JValue) (c : ascii) (rest : string) :
  Protocol.ends_number c = true ->
  Protocol.parse_value (S fuel) (Protocol.render_value v ++ String c rest) =
  Some (Protocol.read_value v, String c rest).
Proof.
  intros Hc. destruct v as [q | s]; cbn [Protocol.render_value Protocol.read_value].
  - destruct (render_number_head q) as (a & t & E & Ha).
    pose proof (scan_number_render q c rest Hc) as Hs.
    rewrite E in Hs |- *. cbn [append] in Hs |- *.
    rewrite (parse_value_number fuel a _ Ha), Hs. rewrite <- E. reflexivity.
  - unfold Protocol.quote. cbn [append]. rewrite append_assoc. cbn [append].
    rewrite parse_value_string, scan_string_escape. reflexivity.
Qed.

Lemma parse_members_step (fuel : nat) (value : string -> option (Protocol.Json * string))
      (k tail : string) :
  Protocol.parse_members (S fuel) value (Protocol.quote k ++ String ":" tail) =
  match value tail with
  | None => None
  | Some (v, rest3) =>
      match Protocol.skip_space rest3 with
      | EmptyString => None
      | String c rest4 =>
          if Ascii.eqb c "," then
            match Protocol.parse_members fuel value rest4 with
            | Some (ms, r) => Some ((k, v) :: ms, r)
            | None => None
            end
          else if Ascii.eqb c "}" then Some ([(k, v)], rest4)
          else None
      end
  end.
Proof.
  unfold Protocol.quote. cbn [append]. rewrite append_assoc. cbn [append].
  cbn [Protocol.parse_members Protocol.skip_space].
  change (Protocol.is_json_space Protocol.dquote) with false. cbv iota.
  change (Ascii.eqb Protocol.dquote Protocol.dquote) with true. cbv iota.
  rewrite scan_string_escape. reflexivity.
Qed.

Lemma parse_members_render (value : string -> option (Protocol.Json * string))
      (o : Protocol.JObject) :
  (forall v c rest, Protocol.ends_number c = true ->
     value (Protocol.render_value v ++ String c rest)%string =
     Some (Protocol.read_value v, String c rest)) ->
  forall (fuel : nat) (tail : string),
    o <> [] -> (List.length o <= fuel)%nat ->
    Protocol.parse_members fuel value (Protocol.render_members o ++ String "}" tail) =
    Some (Protocol.read_object o, tail).
Proof.
  intros Hv. induction o as [| [k v] rest IH]; intros fuel tail Hne Hf; [congruence |].
  destruct fuel as [| fuel]; [simpl in Hf; lia |].
  cbn [Protocol.render_members]. destruct rest as [| m rest'].
  - rewrite !append_assoc. cbn [append].
    rewrite parse_members_step, Hv by reflexivity. reflexivity.
  - rewrite !append_assoc. cbn [append].
    rewrite parse_members_step, Hv by reflexivity.
    cbn [Protocol.skip_space]. change (Protocol.is_json_space ",") with false.
    cbv iota. change (Ascii.eqb "," ",") with true. cbv iota.
    rewrite IH; [reflexivity | discriminate | simpl in Hf |- *; lia].
Qed.

Lemma render_members_head (o : Protocol.JObject) (tail : string) :
  o <> [] ->
  exists s, (Protocol.render_members o ++ tail)%string = String Protocol.dquote s.
Proof.
  destruct o as [| [k v] rest]; [congruence |]. intros _.
  cbn [Protocol.render_members]. destruct rest; unfold Protocol.quote;
    cbn [append]; eexists; reflexivity.
Qed.

Lemma render_members_length (o : Protocol.JObject) :
  (List.length o <= String.length (Protocol.render_members o))%nat.
Proof.
  induction o as [| [k v] rest IH]; [simpl; lia |].
  cbn [Protocol.render_members]. destruct rest as [| m rest'].
  - unfold Protocol.quote. simpl. lia.
  - rewrite length_append. unfold Protocol.quote at 1.
    cbn [append String.length List.length] in *. rewrite length_append. cbn [String.length]. lia.
Qed.

(** Reading what [stringify] wrote gives back the members, in order, each
    with its name and its value. *)
Lemma parse_stringify (o : Protocol.JObject) :
  Protocol.parse (Protocol.stringify o) = Some (Protocol.VObject (Protocol.read_object o)).
Proof.
  unfold Protocol.parse, Protocol.stringify. cbn [append String.length].
  cbn [Protocol.parse_value Protocol.skip_space].
  change (Protocol.is_json_space "{") with false. cbv iota.
  change (Ascii.eqb "{" "{") with true. cbv iota.
  destruct o as [| m rest].
  - reflexivity.
  - destruct (render_members_head (m :: rest) "}" ltac:(discriminate)) as (s & E).
    unfold Protocol.closes. rewrite E at 1. cbn [Protocol.skip_space].
    change (Protocol.is_json_space Protocol.dquote) with false. cbv iota.
    change (Ascii.eqb Protocol.dquote "}") with false. cbv iota.
    rewrite parse_members_render.
    + reflexivity.
    + intros v c r Hc. apply parse_value_render. exact Hc.
    + discriminate.
    + rewrite length_append. pose proof (render_members_length (m :: rest)). lia.
Qed.

Lemma render_number_inject_Z (n : Z) :
  Protocol.render_number (inject_Z n) = Js.string_of_Z n.
Proof.
  unfold Protocol.render_number, inject_Z. cbn [Qnum Qden].
  rewrite Z.mod_1_r, Z.div_1_r. cbn [Z.eqb].
  destruct n as [| p | p]; reflexivity.
Qed.

Lemma decode_encode (marker code : string) (o : Protocol.JObject) :
  Protocol.decode_frame (Protocol.encode marker code o) =
    Some (marker, code, Protocol.stringify o) ->
  Protocol.decode (Protocol.encode marker code o) =
    Some (marker, code, Protocol.VObject (Protocol.read_object o)).
Proof.
  intros H. unfold Protocol.decode. rewrite H, parse_stringify. reflexivity.
Qed.

Lemma token_inv (s t r : string) :
  Protocol.token s = Some (t, r) -> s = (t ++ String " " r)%string.
Proof.
  revert t. induction s as [| c s IH]; intros t; simpl; [discriminate |].
  destruct (Ascii.eqb_spec c " ") as [-> | _].
  - intros E. inversion E; subst. reflexivity.
  - destruct (Protocol.token s) as [[t' r'] |]; [| discriminate].
    intros E. inversion E; subst. simpl. rewrite (IH t' eq_refl). reflexivity.
Qed.

Lemma chomp_inv (s p : string) :
  Protocol.chomp s = Some p ->
  s = (p ++ String Protocol.newline EmptyString)%string /\ Protocol.count_newlines p = O.
Proof.
  revert p. induction s as [| c s IH]; intros p; simpl; [discriminate |].
  destruct (Ascii.eqb_spec c Protocol.newline) as [-> | Hc].
  - destruct s; [| discriminate]. intros E. inversion E; subst. split; reflexivity.
  - destruct (Protocol.chomp s) as [p' |]; [| discriminate].
    intros E. inversion E; subst. destruct (IH p' eq_refl) as [-> Hn]. split.
    + reflexivity.
    + simpl. destruct (Ascii.eqb_spec c Protocol.newline); [contradiction | exact Hn].
Qed.

(** A line that is read as a result has the three-part shape, and its
    payload holds the path that was read. *)
Lemma decode_result_inv (line : string) (r : GenerationResult) :
  Protocol.decode_result line = Some r ->
  exists (text : string) (ms : list (string * Protocol.Json)),
    line = ("sdbk nwim " ++ text ++ String Protocol.newline EmptyString)%string /\
    Protocol.count_newlines line = 1%nat /\
    Protocol.parse text = Some (Protocol.VObject ms) /\
    Protocol.member "generated_img_path" ms =
      Some (Protocol.VString (generated_img_path r)).
Proof.
  unfold Protocol.decode_result, Protocol.decode, Protocol.decode_frame.
  destruct (Protocol.token line) as [[marker rest] |] eqn:E1; [| discriminate].
  destruct (Protocol.token rest) as [[code rest'] |] eqn:E2; [| discriminate].
  destruct (Protocol.chomp rest') as [payload |] eqn:E3; [| discriminate].
  destruct ((String.length marker =? 4)%nat && (String.length code =? 4)%nat);
    [| discriminate].
  destruct (Protocol.parse payload) as [v |] eqn:E4; [| discriminate].
  destruct v as [| b | lit | t | items | ms]; try discriminate.
  destruct (String.eqb_spec marker "sdbk") as [-> | _]; [| discriminate].
  destruct (String.eqb_spec code "nwim") as [-> | _]; [| discriminate].
  cbn [andb]. unfold Protocol.string_member at 1.
  destruct (Protocol.member "generated_img_path" ms) as [v |] eqn:E5; [| discriminate].
  destruct v as [| b | lit | path | items | ms']; try discriminate.
  intros E. inversion E; subst r. cbn [generated_img_path].
  apply token_inv in E1. apply token_inv in E2. apply chomp_inv in E3.
  destruct E3 as [E3 Hn]. subst line rest rest'.
  exists payload, ms. split; [reflexivity |]. split; [| split; [exact E4 | exact E5]].
  cbn [append Protocol.count_newlines Ascii.eqb Bool.eqb Nat.add].
  rewrite count_newlines_app, Hn. reflexivity.
Qed.

(** [handleGenerate] hands [generate_image] the request object built from the
    prompt and the store's dimensions, after marking the generation started. *)
Lemma handleGenerate_sends_request (prompt : string) (w : World) :
  Js.truthy_string (Js.trim prompt) = true ->
  exists k : Settled GenerationResult -> Async unit,
    advance (ImageGenerator.handleGenerate prompt) w =
    (Pending (generate_image
                (ImageGenerator.request prompt (img_width (params (store w)))
                                        (img_height (params (store w))))) k,
     exec rejecting generationActions.startGeneration w).
Proof.
  intros Hp. unfold ImageGenerator.handleGenerate. rewrite Hp. simpl.
  eexists. reflexivity.
Qed.

(** C7 — Every outbound text-to-image command is one line, [b2py t2im]
    followed by a JSON object whose members are, in this order and with no
    other, [prompt], [img_width], [img_height], [num_imgs],
    [num_inference_steps] and [guidance_scale], each with the value of the
    request; for the request that [handleGenerate] builds the bytes of the
    line are the ones given.  Every line that is read as a result, the
    worker's own among them, is one line, [sdbk nwim] followed by a JSON
    object that holds the image path as a string under
    [generated_img_path]. *)
Theorem line_protocol_shape (request : GenerationParams) (result : GenerationResult) :
  (Protocol.decode (Protocol.text_to_image request) =
     Some ("b2py", "t2im",
           Protocol.VObject
             [ ("prompt", Protocol.VString (prompt request));
               ("img_width", Protocol.VNumber (Js.string_of_Z (img_width request)));
               ("img_height", Protocol.VNumber (Js.string_of_Z (img_height request)));
               ("num_imgs", Protocol.VNumber (Js.string_of_Z (num_imgs request)));
               ("num_inference_steps",
                Protocol.VNumber (Js.string_of_Z (num_inference_steps request)));
               ("guidance_scale",
                Protocol.VNumber (Protocol.render_number (guidance_scale request))) ])%string /\
   Protocol.count_newlines (Protocol.text_to_image request) = 1%nat /\
   forall (prompt : string) (width height : Z),
     Protocol.text_to_image (ImageGenerator.request prompt width height) =
       ("b2py t2im {"
          ++ Protocol.quoted "prompt" ++ ":" ++ Protocol.quote prompt ++ ","
          ++ Protocol.quoted "img_width" ++ ":" ++ Js.string_of_Z width ++ ","
          ++ Protocol.quoted "img_height" ++ ":" ++ Js.string_of_Z height ++ ","
          ++ Protocol.quoted "num_imgs" ++ ":1,"
          ++ Protocol.quoted "num_inference_steps" ++ ":20,"
          ++ Protocol.quoted "guidance_scale" ++ ":7.5}"
          ++ String Protocol.newline EmptyString)%string) /\
  (Protocol.decode_result (Protocol.new_image result) = Some result /\
   Protocol.count_newlines (Protocol.new_image result) = 1%nat /\
   forall (line : string) (r : GenerationResult),
     Protocol.decode_result line = Some r ->
     exists (text : string) (ms : list (string * Protocol.Json)),
       line = ("sdbk nwim " ++ text ++ String Protocol.newline EmptyString)%string /\
       Protocol.count_newlines line = 1%nat /\
       Protocol.parse text = Some (Protocol.VObject ms) /\
       Protocol.member "generated_img_path" ms =
         Some (Protocol.VString (generated_img_path r))).
Proof.
  split; [split; [| split] | split; [| split]].
  - unfold Protocol.text_to_image. rewrite decode_encode.
    + unfold Protocol.json_of_request, Protocol.read_object.
      cbn [map fst snd Protocol.read_value]. rewrite !render_number_inject_Z. reflexivity.
    + unfold Protocol.encode, Protocol.decode_frame.
      cbn [append Protocol.token Ascii.eqb Bool.eqb].
      rewrite chomp_terminated by apply stringify_one_line. reflexivity.
  - unfold Protocol.text_to_image, Protocol.encode.
    repeat rewrite count_newlines_app. rewrite stringify_one_line. reflexivity.
  - intros text width height.
    unfold Protocol.text_to_image, Protocol.encode, Protocol.stringify,
      Protocol.json_of_request, ImageGenerator.request.
    cbn [prompt img_width img_height num_imgs num_inference_steps guidance_scale
         Protocol.render_members Protocol.render_value].
    rewrite !render_number_inject_Z. rewrite !append_assoc. reflexivity.
  - unfold Protocol.decode_result, Protocol.new_image. rewrite decode_encode.
    + destruct result as [path [aux |]]; reflexivity.
    + unfold Protocol.encode, Protocol.decode_frame.
      cbn [append Protocol.token Ascii.eqb Bool.eqb].
      rewrite chomp_terminated by apply stringify_one_line. reflexivity.
  - unfold Protocol.new_image, Protocol.encode.
    repeat rewrite count_newlines_app. rewrite stringify_one_line. reflexivity.
  - apply decode_result_inv.
Qed.

Lemma line_protocol_shape_witness :
  Protocol.decode_result Protocol.readme_result_line =
    Some (mkResult "/path/to/image.png" None) /\
  exists (text : string) (ms : list (string * Protocol.Json)),
    Protocol.readme_result_line =
      ("sdbk nwim " ++ text ++ String Protocol.newline EmptyString)%string /\
    Protocol.count_newlines Protocol.readme_result_line = 1%nat /\
    Protocol.parse text = Some (Protocol.VObject ms) /\
    Protocol.member "generated_img_path" ms =
      Some (Protocol.VString "/path/to/image.png").
Proof.
  split; [reflexivity |].
  destruct (line_protocol_shape (ImageGenerator.request "a cat" 512 512)
                                (mkResult "/out/1.png" None)) as [_ (_ & _ & H)].
  apply (H Protocol.readme_result_line (mkResult "/path/to/image.png" None)).
  reflexivity.
Defined.

(* ================================================================== *)
(** * Further properties of the components *)

(** ** Prompts *)

Lemma strip_space_shorter (s rest : string) :
  Js.strip_space s = Some rest -> (String.length rest < String.length s)%nat.
Proof.
  destruct s as [| c s1]; simpl; [discriminate |].
  destruct (Js.is_whitespace c).
  { intros E. inversion E; subst. lia. }
  destruct (N_of_ascii c =? 194)%N.
  { destruct s1 as [| c2 s2]; [discriminate |].
    destruct (N_of_ascii c2 =? 160)%N; [| discriminate].
    intros E. inversion E; subst. simpl. lia. }
  match goal with |- (if ?b then _ else _) = _ -> _ => destruct b end; [| discriminate].
  destruct s1 as [| c2 [| c3 s3]]; try discriminate.
  match goal with |- (if ?b then _ else _) = _ -> _ => destruct b end; [| discriminate].
  intros E. inversion E; subst. simpl. lia.
Qed.

Lemma trimStart_from_stops (fuel : nat) (s : string) :
  (String.length s <= fuel)%nat -> Js.strip_space (Js.trimStart_from fuel s) = None.
Proof.
  revert s. induction fuel as [| fuel IH]; intros s H.
  - destruct s; [reflexivity | simpl in H; lia].
  - simpl. destruct (Js.strip_space s) as [rest |] eqn:E.
    + apply IH. apply strip_space_shorter in E. lia.
    + exact E.
Qed.

Lemma all_space_from_trimStart (fuel : nat) (s : string) :
  (String.length s <= fuel)%nat ->
  Js.all_space_from fuel s =
  match Js.trimStart_from fuel s with EmptyString => true | _ => false end.
Proof.
  revert s. induction fuel as [| fuel IH]; intros s H.
  - destruct s; [reflexivity | simpl in H; lia].
  - destruct s as [| c s1]; [reflexivity |].
    cbn [Js.all_space_from Js.trimStart_from].
    destruct (Js.strip_space (String c s1)) as [rest |] eqn:E.
    + apply IH. apply strip_space_shorter in E. lia.
    + reflexivity.
Qed.

Lemma all_space_trimStart (s : string) :
  Js.all_space s = match Js.trimStart s with EmptyString => true | _ => false end.
Proof. apply all_space_from_trimStart. apply Nat.le_refl. Qed.

Lemma trimStart_fixed (s : string) : Js.strip_space s = None -> Js.trimStart s = s.
Proof.
  intros E. unfold Js.trimStart. destruct (String.length s); simpl; [| rewrite E]; reflexivity.
Qed.

Lemma trim_truthy (s : string) :
  Js.truthy_string (Js.trim s) = negb (Js.all_space s).
Proof.
  unfold Js.trim. rewrite (all_space_trimStart s).
  pose proof (trimStart_from_stops (String.length s) s (Nat.le_refl _)) as Hstop.
  fold (Js.trimStart s) in Hstop.
  destruct (Js.trimStart s) as [| c rest] eqn:E; [reflexivity |].
  cbn [Js.trimEnd]. rewrite (all_space_trimStart (String c rest)).
  rewrite (trimStart_fixed _ Hstop). reflexivity.
Qed.

Example trim_unicode_samples :
  let nbsp := String "194" (String "160" EmptyString) in
  let em_space := String "226" (String "128" (String "131" EmptyString)) in
  let bom := String "239" (String "187" (String "191" EmptyString)) in
  Js.trim (nbsp ++ " a cat" ++ em_space ++ bom) = "a cat"%string /\
  Js.trim (nbsp ++ em_space) = EmptyString /\
  Js.all_space (nbsp ++ "  " ++ bom) = true /\
  Js.all_space (String "194" (String "161" EmptyString)) = false.
Proof. repeat split. Qed.

(** X1 — A prompt of white space only (or empty), Unicode spaces such as
    the no-break space included, never reaches the backend:
    [handleGenerate] returns at once with the error ['Please enter a prompt']
    and touches nothing else; any other prompt starts the generation and
    parks on [generate_image] with that prompt. *)
Theorem blank_prompt_never_reaches_backend (text : string) (w : World) :
  if Js.all_space text
  then fst (advance (ImageGenerator.handleGenerate text) w) = Finished (Returned tt) /\
       store (snd (advance (ImageGenerator.handleGenerate text) w)) =
         mkState (params (store w)) false (progress (store w)) (currentResult (store w))
                 (Some "Please enter a prompt"%string) (history (store w))
  else exists (k : Settled GenerationResult -> Async unit) (request : GenerationParams),
         fst (advance (ImageGenerator.handleGenerate text) w) =
           Pending (generate_image request) k /\
         prompt request = text /\
         isGenerating (store (snd (advance (ImageGenerator.handleGenerate text) w))) = true.
Proof.
  unfold ImageGenerator.handleGenerate. rewrite trim_truthy.
  destruct (Js.all_space text); simpl.
  - split; reflexivity.
  - eexists. eexists. split; [reflexivity |]. split; reflexivity.
Qed.

(** X2 — When [generate_image] resolves, the handler records the result as
    the current one and at the head of the history and clears
    [isGenerating], whatever the page went through meanwhile; it leaves the
    error field as it finds it, so a message recorded by a cancel stays. *)
Theorem late_result_is_recorded (text : string) (w : World) :
  Js.truthy_string (Js.trim text) = true ->
  exists (k : Settled GenerationResult -> Async unit) (request : GenerationParams),
    fst (advance (ImageGenerator.handleGenerate text) w) =
      Pending (generate_image request) k /\
    forall (result : GenerationResult) (w1 : World),
      let w2 := snd (advance (k (Resolved result)) w1) in
      fst (advance (k (Resolved result)) w1) = Finished (Returned tt) /\
      isGenerating (store w2) = false /\
      currentResult (store w2) = Some result /\
      history (store w2) = firstn 50 (result :: history (store w1)) /\
      error (store w2) = error (store w1) /\
      progress (store w2) = progress (store w1).
Proof.
  intros Hp. unfold ImageGenerator.handleGenerate. rewrite Hp. simpl.
  eexists. eexists. split; [reflexivity |].
  intros result w1. repeat split.
Qed.

Lemma late_result_is_recorded_witness :
  exists (k : Settled GenerationResult -> Async unit) (request : GenerationParams),
    fst (advance (ImageGenerator.handleGenerate "a cat") initialWorld) =
      Pending (generate_image request) k /\
    forall (result : GenerationResult) (w1 : World),
      let w2 := snd (advance (k (Resolved result)) w1) in
      fst (advance (k (Resolved result)) w1) = Finished (Returned tt) /\
      isGenerating (store w2) = false /\
      currentResult (store w2) = Some result /\
      history (store w2) = firstn 50 (result :: history (store w1)) /\
      error (store w2) = error (store w1) /\
      progress (store w2) = progress (store w1).
Proof.
  apply (late_result_is_recorded "a cat" initialWorld). reflexivity.
Defined.

(** X3 — [handleCancel] never lets an exception out and always clears
    [isGenerating]: when [cancel_generation] succeeds the error is
    ['Generation cancelled'], and when it fails the error is the rejection
    itself. *)
Theorem handleCancel_records_outcome (w : World) :
  exists k : Settled unit -> Async unit,
    advance ImageGenerator.handleCancel w = (Pending cancel_generation k, w) /\
    forall (r : Settled unit) (w1 : World),
      fst (advance (k r) w1) = Finished (Returned tt) /\
      isGenerating (store (snd (advance (k r) w1))) = false /\
      error (store (snd (advance (k r) w1))) =
        Some (match r with
              | Resolved _ => "Generation cancelled"%string
              | Rejected e => e
              end) /\
      console (snd (advance (k r) w1)) = console w1.
Proof.
  eexists. split; [reflexivity |].
  intros [[] | e] w1; repeat split.
Qed.

(** X4 — The step count and guidance scale chosen in the advanced controls
    set the total of the progress snapshot, but not the request: whatever
    was chosen, [handleGenerate] asks the backend for 20 steps at guidance
    7.5 and one image, with the store's dimensions. *)
Theorem advanced_controls_do_not_reach_request
    (backend : Backend) (text : string) (steps : Z) (scale : Q) (w : World) :
  Js.truthy_string (Js.trim text) = true ->
  let w1 := exec backend (bind (AdvancedControls.updateInferenceSteps steps)
                               (fun _ => AdvancedControls.updateGuidanceScale scale)) w in
  exists (k : Settled GenerationResult -> Async unit),
    fst (advance (ImageGenerator.handleGenerate text) w1) =
      Pending (generate_image (mkParams text (img_width (params (store w)))
                                        (img_height (params (store w))) 1 20 (75 # 10))) k /\
    total_steps (progress (store (snd (advance (ImageGenerator.handleGenerate text) w1)))) =
      steps /\
    num_inference_steps (params (store w1)) = steps /\
    guidance_scale (params (store w1)) = scale.
Proof.
  intros Hp. cbv zeta. unfold ImageGenerator.handleGenerate. rewrite Hp. simpl.
  eexists. repeat split.
Qed.

Lemma advanced_controls_do_not_reach_request_witness :
  let w1 := exec rejecting (bind (AdvancedControls.updateInferenceSteps 50)
                                 (fun _ => AdvancedControls.updateGuidanceScale (12 # 1)))
                 initialWorld in
  exists (k : Settled GenerationResult -> Async unit),
    fst (advance (ImageGenerator.handleGenerate "a cat") w1) =
      Pending (generate_image (mkParams "a cat" 512 512 1 20 (75 # 10))) k /\
    total_steps (progress (store (snd (advance (ImageGenerator.handleGenerate "a cat") w1)))) =
      50 /\
    num_inference_steps (params (store w1)) = 50 /\
    guidance_scale (params (store w1)) = 12 # 1.
Proof.
  apply (advanced_controls_do_not_reach_request rejecting "a cat" 50 (12 # 1) initialWorld).
  reflexivity.
Defined.

(** ** Invariants of every reachable page *)

Lemma handlers_keep_running_without_error (h : Handler) :
  safe running_without_error any_answer (handler h).
Proof.
  destruct h; unfold_handlers; repeat safe_step.
  all: unfold running_without_error, store in *; simpl in *.
  all: try assumption.
  all: try (intros w Hw; split; [| exact Logic.I]).
  all: try assumption; try discriminate; try reflexivity.
Qed.

Lemma handlers_keep_history_bounded (h : Handler) :
  safe history_bounded any_answer (handler h).
Proof.
  destruct h; unfold_handlers; repeat safe_step.
  all: unfold history_bounded, store in *; cbn -[firstn] in *.
  all: try assumption.
  all: try (intros w Hw; split; [| exact Logic.I]).
  all: try assumption.
  all: apply firstn_le_length.
Qed.

Lemma any_events_ok (es : list Event) : Forall (event_ok any_answer any_handler) es.
Proof.
  apply Forall_forall. intros [h | index backend] _; simpl.
  - exact Logic.I.
  - intros cmd. exact Logic.I.
Qed.

(** X5 — In every state the page reaches, a generation shown as running has
    no error beside it: starting clears the error, and every action that
    records an error also ends the generation. *)
Theorem running_generation_shows_no_error (es : list Event) :
  isGenerating (store (world (steps initialSystem es))) = true ->
  error (store (world (steps initialSystem es))) = None.
Proof.
  assert (H : system_ok running_without_error any_answer (steps initialSystem es)).
  { apply (steps_ok _ _ any_handler
             (fun h _ => handlers_keep_running_without_error h) es _ (any_events_ok es)).
    repeat split; try constructor. }
  destruct H as [H _]. exact H.
Qed.

Lemma running_generation_shows_no_error_witness :
  let es := [ Dispatch (Generate "   ");
              Dispatch (Generate "a cat");
              Dispatch Reactive ] in
  isGenerating (store (world (steps initialSystem es))) = true /\
  error (store (world (steps initialSystem es))) = None.
Proof.
  cbv zeta. split; [reflexivity |].
  apply (running_generation_shows_no_error
           [ Dispatch (Generate "   ");
             Dispatch (Generate "a cat");
             Dispatch Reactive ]).
  reflexivity.
Defined.

(** X6 — The history never holds more than 50 results, in any state the
    page reaches and however many generations have completed. *)
Theorem history_never_exceeds_fifty (es : list Event) :
  (List.length (history (store (world (steps initialSystem es)))) <= 50)%nat.
Proof.
  assert (H : system_ok history_bounded any_answer (steps initialSystem es)).
  { apply (steps_ok _ _ any_handler
             (fun h _ => handlers_keep_history_bounded h) es _ (any_events_ok es)).
    split; [unfold history_bounded; simpl; lia |]. split; constructor. }
  destruct H as [H _]. exact H.
Qed.

(** ** Invariants that hold between handlers *)

Section Between.

Variable I : World -> Prop.

Lemma ends_keeping_advance {A} (m : Async A) (w : World) :
  ends_keeping I m w ->
  I (snd (advance m w)) /\
  match fst (advance m w) with
  | Finished _ => True
  | Pending cmd k => forall r w', I w' -> ends_keeping I (k r) w'
  end.
Proof.
  revert w. induction m as [a | e | C effect k IH | cmd k IH]; simpl; intros w H.
  - split; [exact H | exact Logic.I].
  - split; [exact H | exact Logic.I].
  - destruct (effect w) as [b w'] eqn:E. simpl in H. apply IH. exact H.
  - exact H.
Qed.

Lemma dispatch_keeps (m : Async unit) (s : System) :
  ends_keeping I m (world s) -> system_keeps I s -> system_keeps I (dispatch m s).
Proof.
  intros Hm [Hw Hp].
  destruct (ends_keeping_advance m (world s) Hm) as [H1 H2].
  unfold dispatch. destruct (advance m (world s)) as [[[u | e] | cmd k] w']; simpl in *.
  - split; assumption.
  - split; assumption.
  - split; [assumption |]. apply Forall_app. split; [assumption |].
    constructor; [| constructor]. exact H2.
Qed.

Hypothesis handlers_keep : forall h w, I w -> ends_keeping I (handler h) w.

Lemma steps_keep (es : list Event) (s : System) :
  system_keeps I s -> system_keeps I (steps s es).
Proof.
  revert s. induction es as [| e rest IH]; intros s Hs; simpl.
  - exact Hs.
  - apply IH. destruct e as [h | index backend]; simpl.
    + apply dispatch_keeps; [apply handlers_keep; apply Hs | exact Hs].
    + destruct (nth_error (pending s) index) as [t |] eqn:E; [| exact Hs].
      destruct Hs as [Hw Hp]. apply dispatch_keeps.
      * simpl. apply (nth_error_Forall _ _ _ _ Hp E). exact Hw.
      * split; simpl; [exact Hw | apply remove_nth_Forall; exact Hp].
Qed.

End Between.

(** ** Polling *)

Ltac between_step :=
  match goal with
  | |- _ /\ _ => split
  | |- forall _, _ => intro
  | r : Settled _ |- _ => destruct r
  | |- context [if ?c then _ else _] => destruct c eqn:?
  | |- context [match ?o with Some _ => _ | None => _ end] => destruct o eqn:?
  end; simpl.

Lemma handlers_keep_single_interval (h : Handler) (w : World) :
  single_interval w -> ends_keeping single_interval (handler h) w.
Proof.
  intros Hw. destruct h; unfold_handlers; simpl.
  all: unfold single_interval, ProgressTracker.pollInterval, store in *; simpl in *.
  all: try assumption.
  all: repeat (between_step; try assumption).
  all: repeat match goal with H : _ /\ _ |- _ => destruct H end.
  all: repeat match goal with
         | H : context [match progressInterval ?x with _ => _ end] |- _ =>
             destruct (progressInterval x) eqn:?; simpl in *
         end.
  all: repeat match goal with
         | H : Some _ = Some _ |- _ => inversion H; subst; clear H
         | H : Some _ = None |- _ => discriminate H
         | H : None = Some _ |- _ => discriminate H
         | H : _ /\ _ |- _ => destruct H
         end.
  all: repeat match goal with
         | H : context [?id =? 0] |- _ => destruct (Z.eqb_spec id 0); [lia |]; simpl in *
         end.
  all: rewrite ?andb_false_r, ?andb_true_r in *; try discriminate; try lia.
  all: try match goal with H : timers _ = _ |- _ => rewrite H; simpl end.
  all: rewrite ?Z.eqb_refl; try reflexivity.
Qed.

Lemma single_interval_reachable (es : list Event) :
  single_interval (world (steps initialSystem es)).
Proof.
  assert (H : system_keeps single_interval (steps initialSystem es)).
  { apply (steps_keep _ handlers_keep_single_interval es).
    split; [| constructor]. split; [simpl; lia | reflexivity]. }
  destruct H as [H _]. exact H.
Qed.

(** X7 — The tracker never leaks an interval: in every state the page
    reaches there is at most one live interval, it polls every 500ms, and it
    is the one [progressInterval] holds. *)
Theorem tracker_never_leaks_an_interval (es : list Event) :
  match progressInterval (world (steps initialSystem es)) with
  | None => timers (world (steps initialSystem es)) = []
  | Some id => id <> 0 /\ timers (world (steps initialSystem es)) = [mkTimer id 500]
  end.
Proof.
  destruct (single_interval_reachable es) as [_ H].
  destruct (progressInterval (world (steps initialSystem es))) as [id |].
  - destruct H as [H1 H2]. split; [lia | exact H2].
  - exact H.
Qed.

(** X8 — Once the store no longer shows a running generation, the next run
    of the tracker's reactive statement stops polling: no interval stays
    live and [progressInterval] is null. *)
Theorem polling_stops_with_generation (es : list Event) :
  isGenerating (store (world (steps initialSystem es))) = false ->
  timers (world (steps initialSystem (es ++ [Dispatch Reactive]))) = [] /\
  progressInterval (world (steps initialSystem (es ++ [Dispatch Reactive]))) = None.
Proof.
  intros Hg. unfold steps. rewrite fold_left_app. fold (steps initialSystem es).
  destruct (single_interval_reachable es) as [Hn H].
  set (s := steps initialSystem es) in *.
  simpl. unfold dispatch, ProgressTracker.reactive. simpl.
  rewrite Hg. simpl.
  destruct (progressInterval (world s)) as [id |] eqn:E; simpl.
  - destruct H as [Hid Ht].
    assert (Hz : (id =? 0) = false) by (apply Z.eqb_neq; lia).
    rewrite ?E. simpl. rewrite ?Hz. simpl. rewrite ?E. simpl. rewrite ?Hz. simpl.
    rewrite Ht. simpl. rewrite Z.eqb_refl. simpl. split; reflexivity.
  - rewrite ?E. simpl. rewrite ?E. split; [exact H | reflexivity].
Qed.

Lemma polling_stops_with_generation_witness :
  let es := [ Dispatch (Generate "a cat");
              Dispatch Reactive;
              Dispatch TrackerCancel;
              Settle 1 (answering_cancel (Resolved tt)) ] in
  timers (world (steps initialSystem es)) = [mkTimer 1 500] /\
  timers (world (steps initialSystem (es ++ [Dispatch Reactive]))) = [] /\
  progressInterval (world (steps initialSystem (es ++ [Dispatch Reactive]))) = None.
Proof.
  cbv zeta. split; [reflexivity |].
  apply (polling_stops_with_generation
           [ Dispatch (Generate "a cat");
             Dispatch Reactive;
             Dispatch TrackerCancel;
             Settle 1 (answering_cancel (Resolved tt)) ]).
  reflexivity.
Defined.

(** X9 — A poll never ends the generation: whatever snapshot the backend
    returns, flags included, the callback replaces the progress and leaves
    [isGenerating], the error, the results and the parameters as they are. *)
Theorem poll_only_replaces_progress (w : World) :
  exists k : Settled GenerationProgress -> Async unit,
    advance ProgressTracker.poll w = (Pending get_generation_progress k, w) /\
    forall (p : GenerationProgress) (w1 : World),
      let w2 := snd (advance (k (Resolved p)) w1) in
      store w2 = mkState (params (store w1)) (isGenerating (store w1)) p
                         (currentResult (store w1)) (error (store w1))
                         (history (store w1)) /\
      timers w2 = timers w1 /\
      progressInterval w2 = progressInterval w1.
Proof.
  eexists. split; [reflexivity |].
  intros p w1. simpl.
  destruct (negb (Js.truthy_number (startTime w1))
            || (current_step (tracker_progress w1) =? 0)); simpl.
  - repeat split.
  - destruct (current_step (tracker_progress w1) >? 0); simpl; repeat split.
Qed.

(** X10 — A poll still in flight when polling is stopped is not dropped:
    when it resolves, its snapshot is written to the store all the same,
    while the time estimate stays empty since the start time is gone. *)
Theorem poll_in_flight_survives_stop (backend : Backend) (w : World) :
  exists k : Settled GenerationProgress -> Async unit,
    advance ProgressTracker.poll w = (Pending get_generation_progress k, w) /\
    forall (p : GenerationProgress) (w1 : World),
      let stopped := exec backend ProgressTracker.stopProgressPolling w1 in
      let w2 := snd (advance (k (Resolved p)) stopped) in
      fst (advance (k (Resolved p)) stopped) = Finished (Returned tt) /\
      progress (store w2) = p /\
      Writable.published (generationStore w2) =
        Writable.published (generationStore w1) ++ [store w2] /\
      startTime w2 = None /\
      estimatedTimeRemaining w2 = ""%string.
Proof.
  eexists. split; [reflexivity |].
  intros p w1. unfold exec, ProgressTracker.stopProgressPolling. simpl.
  destruct (Js.truthy_number (progressInterval w1)); simpl.
  - destruct (progressInterval w1); simpl; repeat split.
  - repeat split.
Qed.

(** ** Settings *)

(** X11 — [loadSettings] parks on [get_settings].  If the call fails, the
    failure is logged and neither store changes; if it succeeds, the
    settings store takes the answer and the generation parameters take its
    four defaults, keeping the prompt and the image count. *)
Theorem loadSettings_outcomes (w : World) :
  exists k : Settled AppSettings -> Async unit,
    advance settingsActions.loadSettings w = (Pending get_settings k, w) /\
    (forall (e : Js.JsError) (w1 : World),
       let w2 := snd (advance (k (Rejected e)) w1) in
       fst (advance (k (Rejected e)) w1) = Finished (Returned tt) /\
       generationStore w2 = generationStore w1 /\
       settingsStore w2 = settingsStore w1 /\
       console w2 = console w1 ++ [("Failed to load settings: " ++ e)%string]) /\
    (forall (settings : AppSettings) (w1 : World),
       let w2 := snd (advance (k (Resolved settings)) w1) in
       fst (advance (k (Resolved settings)) w1) = Finished (Returned tt) /\
       Writable.value (settingsStore w2) = settings /\
       params (store w2) =
         mkParams (prompt (params (store w1))) (default_width settings)
                  (default_height settings) (num_imgs (params (store w1)))
                  (default_inference_steps settings) (default_guidance_scale settings) /\
       isGenerating (store w2) = isGenerating (store w1) /\
       progress (store w2) = progress (store w1) /\
       console w2 = console w1).
Proof.
  eexists. split; [reflexivity |]. split.
  - intros e w1. repeat split.
  - intros settings w1. repeat split.
Qed.

(** ** Numbers typed into the dimension inputs *)


Lemma read_digits_acc (d : Decimal.uint) (acc : positive) (seen : bool) :
  Js.read_digits 10 (Z.pos acc) seen (NilEmpty.string_of_uint d) =
  (Z.pos (Pos.of_uint_acc d acc), match d with Decimal.Nil => seen | _ => true end).
Proof.
  revert acc seen.
  induction d as [| d IH | d IH | d IH | d IH | d IH | d IH | d IH | d IH | d IH | d IH];
    intros acc seen; [reflexivity | ..].
  all: cbn [NilEmpty.string_of_uint Js.read_digits Pos.of_uint_acc].
  all: match goal with
       | |- context [Js.digit_value 10 ?c] =>
           let v := eval vm_compute in (Js.digit_value 10 c) in
           change (Js.digit_value 10 c) with v
       end; cbv iota.
  all: match goal with
       | |- Js.read_digits 10 ?x true _ = (Z.pos (Pos.of_uint_acc _ ?y), _) =>
           replace x with (Z.pos y) by lia
       end.
  all: rewrite IH; destruct d; reflexivity.
Qed.

Lemma read_digits_uint (d : Decimal.uint) (seen : bool) :
  Js.read_digits 10 0 seen (NilEmpty.string_of_uint d) =
  (Z.of_N (Pos.of_uint d), match d with Decimal.Nil => seen | _ => true end).
Proof.
  revert seen.
  induction d as [| d IH | d IH | d IH | d IH | d IH | d IH | d IH | d IH | d IH | d IH];
    intros seen; [reflexivity | ..].
  all: cbn [NilEmpty.string_of_uint Js.read_digits Pos.of_uint].
  all: match goal with
       | |- context [Js.digit_value 10 ?c] =>
           let v := eval vm_compute in (Js.digit_value 10 c) in
           change (Js.digit_value 10 c) with v
       end; cbv iota.
  - change (10 * 0 + 0) with 0. rewrite IH. destruct d; reflexivity.
  - change (10 * 0 + 1) with (Z.pos 1). rewrite read_digits_acc. destruct d; reflexivity.
  - change (10 * 0 + 2) with (Z.pos 2). rewrite read_digits_acc. destruct d; reflexivity.
  - change (10 * 0 + 3) with (Z.pos 3). rewrite read_digits_acc. destruct d; reflexivity.
  - change (10 * 0 + 4) with (Z.pos 4). rewrite read_digits_acc. destruct d; reflexivity.
  - change (10 * 0 + 5) with (Z.pos 5). rewrite read_digits_acc. destruct d; reflexivity.
  - change (10 * 0 + 6) with (Z.pos 6). rewrite read_digits_acc. destruct d; reflexivity.
  - change (10 * 0 + 7) with (Z.pos 7). rewrite read_digits_acc. destruct d; reflexivity.
  - change (10 * 0 + 8) with (Z.pos 8). rewrite read_digits_acc. destruct d; reflexivity.
  - change (10 * 0 + 9) with (Z.pos 9). rewrite read_digits_acc. destruct d; reflexivity.
Qed.

Ltac parse_decimal :=
  unfold Js.parseInt, NilZero.string_of_uint; cbn [NilEmpty.string_of_uint];
  rewrite trimStart_fixed by reflexivity; cbv beta iota zeta;
  match goal with
  | |- context [Js.read_digits 10 0 false ?s] =>
      match goal with
      | |- _ = Some (_ (Z.of_N (Pos.of_uint ?dd))) =>
          change s with (NilEmpty.string_of_uint dd)
      | |- _ = Some (Z.of_N (Pos.of_uint ?dd)) =>
          change s with (NilEmpty.string_of_uint dd)
      end
  end;
  rewrite read_digits_uint; cbv beta iota.

Lemma parseInt_uint (d : Decimal.uint) :
  Js.parseInt (NilZero.string_of_uint d) = Some (Z.of_N (Pos.of_uint d)).
Proof.
  destruct d as [| d | d | d | d | d | d | d | d | d | d]; [reflexivity | ..].
  1: destruct d as [| d | d | d | d | d | d | d | d | d | d]; [reflexivity | ..].
  all: parse_decimal; rewrite Z.mul_1_l; reflexivity.
Qed.

Lemma parseInt_negated_uint (d : Decimal.uint) :
  Js.parseInt (String "-" (NilZero.string_of_uint d)) = Some (- Z.of_N (Pos.of_uint d)).
Proof.
  destruct d as [| d | d | d | d | d | d | d | d | d | d]; [reflexivity | ..].
  1: destruct d as [| d | d | d | d | d | d | d | d | d | d]; [reflexivity | ..].
  all: parse_decimal; f_equal; lia.
Qed.

Lemma parseInt_decimal (n : Z) : Js.parseInt (Js.string_of_Z n) = Some n.
Proof.
  destruct n as [| p | p].
  - reflexivity.
  - change (Js.parseInt (NilZero.string_of_uint (Pos.to_uint p)) = Some (Z.pos p)).
    rewrite parseInt_uint, DecimalPos.Unsigned.of_to. reflexivity.
  - change (Js.parseInt (String "-" (NilZero.string_of_uint (Pos.to_uint p))) =
            Some (Z.neg p)).
    rewrite parseInt_negated_uint, DecimalPos.Unsigned.of_to. reflexivity.
Qed.

(** X12 — A dimension input holding the decimal text of a whole number [n]
    is accepted exactly when [256 <= n <= 1024]: [handleWidthChange] then
    stores [n] itself as the width, and for any other whole number it leaves
    the page untouched. *)
Theorem decimal_dimension_is_gated (backend : Backend) (n : Z) (w : World) :
  DimensionInput.validateDimension (Js.string_of_Z n) = dimension_ok n /\
  let w' := exec backend (DimensionInput.handleWidthChange (Js.string_of_Z n)) w in
  if dimension_ok n
  then img_width (params (store w')) = n /\
       img_height (params (store w')) = input_height w
  else w' = w.
Proof.
  pose proof (parseInt_decimal n) as H. split.
  - unfold DimensionInput.validateDimension, dimension_ok. rewrite H. simpl.
    rewrite Z.geb_leb. reflexivity.
  - pose proof (handleWidthChange_effect backend (Js.string_of_Z n) w) as E.
    cbv zeta in E |- *. rewrite H in E. unfold dimension_ok. exact E.
Qed.

(** X13 — Clicking any of the four presets puts exactly the preset's size in
    the store, in two updates, and every preset lies within [256, 1024];
    the other generation parameters are untouched. *)
Theorem presets_apply_in_range (backend : Backend) (preset : DimensionInput.Preset)
    (w : World) :
  In preset DimensionInput.aspectRatios ->
  let w' := exec backend (DimensionInput.applyAspectRatio preset) w in
  params (store w') =
    mkParams (prompt (params (store w))) (DimensionInput.preset_width preset)
             (DimensionInput.preset_height preset) (num_imgs (params (store w)))
             (num_inference_steps (params (store w))) (guidance_scale (params (store w))) /\
  dimensions_ok (params (store w')) = true /\
  List.length (Writable.published (generationStore w')) =
    (2 + List.length (Writable.published (generationStore w)))%nat.
Proof.
  intros Hin. cbv zeta. split; [reflexivity |]. split.
  - simpl in Hin.
    repeat (destruct Hin as [Hin | Hin]; [subst preset; reflexivity |]).
    contradiction.
  - unfold exec. simpl. rewrite !length_app. simpl. rewrite !Nat.add_1_r. reflexivity.
Qed.

Lemma presets_apply_in_range_witness :
  let preset := DimensionInput.mkPreset "Wide" 768 432 in
  let w' := exec rejecting (DimensionInput.applyAspectRatio preset) initialWorld in
  In preset DimensionInput.aspectRatios /\
  params (store w') = mkParams "" 768 432 1 20 (75 # 10) /\
  dimensions_ok (params (store w')) = true /\
  List.length (Writable.published (generationStore w')) = 2%nat.
Proof.
  cbv zeta.
  assert (Hin : In (DimensionInput.mkPreset "Wide" 768 432) DimensionInput.aspectRatios).
  { simpl. right. right. right. left. reflexivity. }
  split; [exact Hin |].
  exact (presets_apply_in_range rejecting _ initialWorld Hin).
Defined.

(** ** The progress bar *)

Lemma percentage_le (n c t : Z) :
  0 < t ->
  (inject_Z n <= inject_Z c / inject_Z t * 100)%Q <-> n * t <= 100 * c.
Proof.
  intros Ht. destruct t as [| p | p]; try lia.
  unfold Qle, Qdiv, Qmult, Qinv, inject_Z. cbn [Qnum Qden].
  rewrite ?Pos.mul_1_r, ?Pos.mul_1_l, ?Z.mul_1_r. lia.
Qed.



(** X15 — What [getProgressStatus] and [getProgressColor] return when they
    are called with the percentage of [c] steps out of a positive total [t],
    in step counts: the status is 'Finalizing...' from [10c >= 9t],
    'Refining details...' from [10c >= 7t], 'Building image...' from
    [10c >= 4t], 'Initializing...' from [10c >= t] and 'Starting...' below;
    the colour changes at the first three of these thresholds only.  This
    is about the two functions, not about when the page calls them again. *)
Theorem progress_status_bands (p : GenerationProgress) :
  0 < total_steps p ->
  let c := current_step p in
  let t := total_steps p in
  let pct := ProgressTracker.progressPercentage p in
  ProgressTracker.getProgressStatus pct =
    (if 9 * t <=? 10 * c then "Finalizing..."%string
     else if 7 * t <=? 10 * c then "Refining details..."%string
     else if 4 * t <=? 10 * c then "Building image..."%string
     else if t <=? 10 * c then "Initializing..."%string
     else "Starting..."%string) /\
  ProgressTracker.getProgressColor pct =
    (if 9 * t <=? 10 * c then "var(--accent-primary)"%string
     else if 7 * t <=? 10 * c then "#00d4aa"%string
     else if 4 * t <=? 10 * c then "#ffa726"%string
     else "#ff6b6b"%string).
Proof.
  intros Ht. cbv zeta.
  assert (E : forall n k : Z, 0 < k -> n * 10 = 100 * k -> 
            Qle_bool (inject_Z n) (ProgressTracker.progressPercentage p) =
            (k * total_steps p <=? 10 * current_step p)).
  { intros n k Hk Hn. unfold ProgressTracker.progressPercentage.
    assert (G : (total_steps p >? 0) = true) by (apply Z.gtb_lt; lia).
    rewrite G. apply eq_true_iff_eq. rewrite Qle_bool_iff, Z.leb_le.
    rewrite percentage_le by exact Ht. nia. }
  unfold ProgressTracker.getProgressStatus, ProgressTracker.getProgressColor.
  change 90%Q with (inject_Z 90). change 70%Q with (inject_Z 70).
  change 40%Q with (inject_Z 40). change 10%Q with (inject_Z 10).
  rewrite (E 90 9), (E 70 7), (E 40 4), (E 10 1) by lia.
  rewrite Z.mul_1_l. split; reflexivity.
Qed.

Lemma progress_status_bands_witness :
  ProgressTracker.getProgressStatus
    (ProgressTracker.progressPercentage (mkProgress 18 20 "Denoising" None None)) =
    "Finalizing..."%string /\
  ProgressTracker.getProgressColor
    (ProgressTracker.progressPercentage (mkProgress 18 20 "Denoising" None None)) =
    "var(--accent-primary)"%string.
Proof.
  apply (progress_status_bands (mkProgress 18 20 "Denoising" None None)).
  reflexivity.
Defined.

(** ** Durations *)




(** ** What the parameter controls leave alone *)

(** The store with its two dimensions set aside. *)
Definition without_dimensions (s : GenerationState) : GenerationState :=
  mkState (mkParams (prompt (params s)) 0 0 (num_imgs (params s))
                    (num_inference_steps (params s)) (guidance_scale (params s)))
          (isGenerating s) (progress s) (currentResult s) (error s) (history s).

(** X17 — Nothing done in the dimension inputs (typing, committing a width or
    a height, clicking a preset, the reactive refresh) changes anything in
    the store but the two dimensions: prompt, step count, guidance, progress,
    results and error stay as they are. *)
Theorem dimension_inputs_change_only_dimensions (backend : Backend) (h : Handler)
    (w : World) :
  match h with
  | WidthTyped _ | HeightTyped _ | WidthChange _ | HeightChange _
  | ApplyPreset _ | DimensionsReactive => True
  | _ => False
  end ->
  fst (run backend (handler h) w) = Returned tt /\
  without_dimensions (store (exec backend (handler h) w)) = without_dimensions (store w).
Proof.
  intros Hh. destruct h; try contradiction; unfold exec; unfold_handlers; simpl.
  - split; reflexivity.
  - split; reflexivity.
  - destruct (DimensionInput.validateDimension value); simpl; [| split; reflexivity].
    destruct (Js.parseInt value); simpl; split; reflexivity.
  - destruct (DimensionInput.validateDimension value); simpl; [| split; reflexivity].
    destruct (Js.parseInt value); simpl; split; reflexivity.
  - split; reflexivity.
  - destruct (nth_error DimensionInput.aspectRatios index); simpl; split; reflexivity.
Qed.

Lemma dimension_inputs_change_only_dimensions_witness :
  fst (run rejecting (handler (WidthChange "768")) initialWorld) = Returned tt /\
  without_dimensions (store (exec rejecting (handler (WidthChange "768")) initialWorld)) =
    without_dimensions (store initialWorld).
Proof.
  apply (dimension_inputs_change_only_dimensions rejecting (WidthChange "768") initialWorld).
  exact Logic.I.
Defined.

(** X18 — [resetToDefaults] of the advanced controls brings the step count
    back to 20 and the guidance scale to 7.5 whatever they were, in two
    store updates, and leaves the prompt, the dimensions and the generation
    state alone. *)
Theorem advanced_reset_restores_defaults (backend : Backend) (w : World) :
  let w' := exec backend AdvancedControls.resetToDefaults w in
  store w' =
    mkState (mkParams (prompt (params (store w))) (img_width (params (store w)))
                      (img_height (params (store w))) (num_imgs (params (store w)))
                      20 (75 # 10))
            (isGenerating (store w)) (progress (store w)) (currentResult (store w))
            (error (store w)) (history (store w)) /\
  Writable.published (generationStore w') =
    Writable.published (generationStore w)
      ++ [ mkState (mkParams (prompt (params (store w))) (img_width (params (store w)))
                             (img_height (params (store w))) (num_imgs (params (store w)))
                             20 (guidance_scale (params (store w))))
                   (isGenerating (store w)) (progress (store w)) (currentResult (store w))
                   (error (store w)) (history (store w));
           store w' ].
Proof.
  cbv zeta. unfold exec. simpl. rewrite <- app_assoc. split; reflexivity.
Qed.
